(** * InvestmentPipeline: a shallow embedding of [src/pages/InvestmentPipeline.tsx]

    The React component is event-handling glue over a remote document
    collection.  The embedding keeps its shape:

    - JavaScript strings are sequences of UTF-16 code units, numbers are
      [number] (a finite value or NaN), the expansion map is a finite map
      keyed by record id;
    - records typed by the interface [Investor] are Rocq records; the data of
      a stored document, which the subscription handler receives untyped, is
      an [object] of values of type [any];
    - the view state created with [useState] is the record [State]; a handler
      is a computation in the monad [M], which threads the state, records the
      requests sent to the collaborators (document store, analysis service,
      console), sets timers, and may end in a rejection that [try_catch]
      handles;
    - what a collaborator answers to an awaited request is an argument of the
      handler ([outcome]), so every theorem holds for every answer.  A
      handler runs to its end in one piece: other events do not interleave
      with its awaits. *)

From Stdlib Require Import ZArith NArith List String Ascii Lia.
From Stdlib Require Import Sorting.Sorted Sorting.Permutation.
From stdpp Require Import base option list gmap.

Open Scope Z_scope.

(** ** JavaScript values *)

(** A string is its sequence of UTF-16 code units. *)
Abbreviation jsstring := (list N).

(** A literal of the source (all of them are ASCII). *)
Definition lit (s : string) : jsstring :=
  map N_of_ascii (list_ascii_of_string s).

(** [a === b] on strings. *)
Definition str_eq (a b : jsstring) : bool := bool_decide (a = b).

(** A string is falsy exactly when it is empty. *)
Definition str_truthy (s : jsstring) : bool :=
  match s with
  | [] => false
  | _ :: _ => true
  end.

(** ECMAScript's WhiteSpace and LineTerminator code points, the ones
    [String.prototype.trim] strips: TAB, LF, VT, FF, CR, SP, NBSP, U+1680,
    U+2000..U+200A, LS, PS, U+202F, U+205F, U+3000 and the BOM. *)
Definition isWhiteSpace (c : N) : bool :=
  ((9 <=? c) && (c <=? 13) || (c =? 32) || (c =? 160) || (c =? 5760)
   || (8192 <=? c) && (c <=? 8202) || (c =? 8232) || (c =? 8233)
   || (c =? 8239) || (c =? 8287) || (c =? 12288) || (c =? 65279))%N.

Fixpoint trimStart (s : jsstring) : jsstring :=
  match s with
  | [] => []
  | c :: s' => if isWhiteSpace c then trimStart s' else s
  end.

Definition trimEnd (s : jsstring) : jsstring := rev (trimStart (rev s)).

(** [s.trim()] *)
Definition trim (s : jsstring) : jsstring := trimEnd (trimStart s).

(** A number: finite values are kept as integers (the handlers below only
    add or subtract one, compare, and take the sign of a difference), and NaN
    is kept apart because it is falsy and compares unequal to everything. *)
Inductive number : Type :=
| NaN
| Num (z : Z).

Definition num_add (a b : number) : number :=
  match a, b with
  | Num x, Num y => Num (x + y)
  | _, _ => NaN
  end.

Definition num_sub (a b : number) : number :=
  match a, b with
  | Num x, Num y => Num (x - y)
  | _, _ => NaN
  end.

(** [a > b], [a < b] and [a === b]: false as soon as one side is NaN. *)
Definition num_gt (a b : number) : bool :=
  match a, b with
  | Num x, Num y => y <? x
  | _, _ => false
  end.

Definition num_lt (a b : number) : bool := num_gt b a.

Definition num_eq (a b : number) : bool :=
  match a, b with
  | Num x, Num y => x =? y
  | _, _ => false
  end.

(** A number is falsy exactly when it is zero or NaN. *)
Definition num_truthy (a : number) : bool :=
  match a with
  | NaN => false
  | Num z => negb (z =? 0)
  end.

(** A value of static type [any], as a stored document holds them. *)
#[warnings="-register-all"]
Inductive any : Type :=
| AUndefined
| ANull
| ABoolean (b : bool)
| ANumber (n : number)
| AString (s : jsstring)
| AArray (items : list any)
| AObject (props : list (jsstring * any)).

Definition typeof (v : any) : jsstring :=
  match v with
  | AUndefined => lit "undefined"
  | ANull => lit "object"
  | ABoolean _ => lit "boolean"
  | ANumber _ => lit "number"
  | AString _ => lit "string"
  | AArray _ => lit "object"
  | AObject _ => lit "object"
  end.

(** An object with string keys and values of type [any]. *)
Abbreviation object := (gmap jsstring any).

(** [o[k]]: a missing property reads as undefined. *)
Definition prop (o : object) (k : jsstring) : any :=
  default AUndefined (o !! k).

(** ** Data model *)

Record User : Type := mkUser {
  uid : jsstring;
  user_email : option jsstring;
  displayName : option jsstring
}.

Record Comment : Type := mkComment {
  comment_id : jsstring;
  text : jsstring;
  date : jsstring
}.

(** Modelled from the spec: the interface [Investor] of [../types], which is
    not among the sources.  The fields are those of the object literal that
    initialises [newInvestor] (typed [Omit<Investor, 'id'>]); the amount is
    optional, as [investor.investmentAmount?.toLocaleString()] and
    [b.investmentAmount || 0] read it.  [status] and [importance] are the
    strings they are at run time. *)
Record InvestorData : Type := mkInvestorData {
  name : jsstring;
  company : jsstring;
  email : jsstring;
  phone : jsstring;
  website : jsstring;
  currentStep : number;
  status : jsstring;
  investmentAmount : option number;
  lastContact : jsstring;
  notes : jsstring;
  comments : list Comment;
  industry : jsstring;
  fundSize : number;
  investmentStage : jsstring;
  location : jsstring;
  importance : jsstring
}.

(** [Investor] is [InvestorData] with the identity the store assigned;
    [fields] is what [const { id, ...updateData } = investor] binds to
    [updateData]. *)
Record Investor : Type := mkInvestor {
  id : jsstring;
  fields :> InvestorData
}.

Definition steps : list jsstring :=
  [ lit "Initial Contact"; lit "Pitch Deck Review"; lit "First Meeting";
    lit "Due Diligence"; lit "Term Sheet"; lit "Negotiation"; lit "Closing" ].

(** [steps.length - 1] *)
Definition lastStep : number := num_sub (Num (Z.of_nat (length steps))) (Num 1).

(** The object literal of [useState] and of the reset in [handleAddInvestor]. *)
Definition emptyInvestor : InvestorData :=
  {| name := []; company := []; email := []; phone := []; website := [];
     currentStep := Num 0; status := lit "active";
     investmentAmount := Some (Num 0); lastContact := []; notes := [];
     comments := []; industry := []; fundSize := Num 0;
     investmentStage := []; location := []; importance := lit "medium" |}.

(** ** Filter and sort *)

(** [investors.filter(investor => filterStatus === 'all' ? true :
    investor.status === filterStatus)] *)
Definition filteredInvestors (filterStatus : jsstring) (investors : list Investor)
  : list Investor :=
  List.filter
    (fun investor : Investor =>
       if str_eq filterStatus (lit "all") then true
       else str_eq (status investor) filterStatus)
    investors.

(** [amount || 0] *)
Definition amountOrZero (amount : option number) : number :=
  match amount with
  | Some n => if num_truthy n then n else Num 0
  | None => Num 0
  end.

Section Sorting.

(** [String.prototype.localeCompare] depends on the host's locale. *)
Variable localeCompare : jsstring -> jsstring -> number.

(** The comparator given to [sort]. *)
Definition compareInvestors (sortBy : jsstring) (a b : Investor) : number :=
  if str_eq sortBy (lit "name") then localeCompare (name a) (name b)
  else if str_eq sortBy (lit "company") then localeCompare (company a) (company b)
  else if str_eq sortBy (lit "investmentAmount") then
    num_sub (amountOrZero (investmentAmount b)) (amountOrZero (investmentAmount a))
  else Num 0.

(** [Array.prototype.sort] is the host's: ECMAScript asks for a stable sort
    in which [x] stays before [y] unless the comparator's answer is
    positive (NaN counts as zero).  Stable insertion is that sort. *)
Fixpoint sort_insert {A : Type} (comparefn : A -> A -> number) (x : A) (l : list A)
  : list A :=
  match l with
  | [] => [x]
  | y :: l' =>
      if num_gt (comparefn x y) (Num 0) then y :: sort_insert comparefn x l'
      else x :: l
  end.

Fixpoint array_sort {A : Type} (comparefn : A -> A -> number) (l : list A) : list A :=
  match l with
  | [] => []
  | x :: l' => sort_insert comparefn x (array_sort comparefn l')
  end.

Definition sortedInvestors (sortBy filterStatus : jsstring) (investors : list Investor)
  : list Investor :=
  array_sort (compareInvestors sortBy) (filteredInvestors filterStatus investors).

End Sorting.

(** ** The subscription handler *)

(** A document of the query snapshot: [doc.id] and [doc.data()]. *)
Record QueryDocumentSnapshot : Type := mkDoc {
  doc_id : jsstring;
  doc_data : object
}.

(** The object pushed for one document:
    [{ id: doc.id, ...data, currentStep: typeof data.currentStep === 'number'
       ? data.currentStep : 0 }].
    Later properties of an object literal win, so [data] overrides [id] and
    the checked [currentStep] overrides [data]'s.  The assertion
    [as Investor] has no effect at run time. *)
Definition snapshotInvestor (doc : QueryDocumentSnapshot) : object :=
  let data := doc_data doc in
  <[lit "currentStep" :=
      if str_eq (typeof (prop data (lit "currentStep"))) (lit "number")
      then prop data (lit "currentStep")
      else ANumber (Num 0)]>
    (data ∪ {[lit "id" := AString (doc_id doc)]}).

(** The callback of [onSnapshot]: the list it hands to [setInvestors]. *)
Definition onSnapshot_handler (querySnapshot : list QueryDocumentSnapshot) : list object :=
  fold_left (fun investorList doc => investorList ++ [snapshotInvestor doc])
            querySnapshot [].

(** ** View state *)

(** The [useState] cells the handlers read or write ([filterStatus] and
    [sortBy] are arguments of [sortedInvestors] above). *)
Record State : Type := mkState {
  investors : list Investor;
  newInvestor : InvestorData;
  isLoading : bool;
  error : option jsstring;
  editingInvestor : option Investor;
  deleteConfirmation : option jsstring;
  expandedCards : gmap jsstring bool;
  showConfetti : bool;
  portfolioAnalysis : list jsstring;
  investmentLikelihood : option number;
  suggestedActions : list jsstring
}.

Definition initialState : State :=
  {| investors := []; newInvestor := emptyInvestor; isLoading := false;
     error := None; editingInvestor := None; deleteConfirmation := None;
     expandedCards := ∅; showConfetti := false; portfolioAnalysis := [];
     investmentLikelihood := None; suggestedActions := [] |}.

Definition with_investors (f : list Investor -> list Investor) (s : State) : State :=
  mkState (f (investors s)) (newInvestor s) (isLoading s) (error s)
    (editingInvestor s) (deleteConfirmation s) (expandedCards s) (showConfetti s)
    (portfolioAnalysis s) (investmentLikelihood s) (suggestedActions s).

Definition with_newInvestor (v : InvestorData) (s : State) : State :=
  mkState (investors s) v (isLoading s) (error s)
    (editingInvestor s) (deleteConfirmation s) (expandedCards s) (showConfetti s)
    (portfolioAnalysis s) (investmentLikelihood s) (suggestedActions s).

Definition with_isLoading (v : bool) (s : State) : State :=
  mkState (investors s) (newInvestor s) v (error s)
    (editingInvestor s) (deleteConfirmation s) (expandedCards s) (showConfetti s)
    (portfolioAnalysis s) (investmentLikelihood s) (suggestedActions s).

Definition with_error (v : option jsstring) (s : State) : State :=
  mkState (investors s) (newInvestor s) (isLoading s) v
    (editingInvestor s) (deleteConfirmation s) (expandedCards s) (showConfetti s)
    (portfolioAnalysis s) (investmentLikelihood s) (suggestedActions s).

Definition with_editingInvestor (v : option Investor) (s : State) : State :=
  mkState (investors s) (newInvestor s) (isLoading s) (error s)
    v (deleteConfirmation s) (expandedCards s) (showConfetti s)
    (portfolioAnalysis s) (investmentLikelihood s) (suggestedActions s).

Definition with_expandedCards (f : gmap jsstring bool -> gmap jsstring bool) (s : State)
  : State :=
  mkState (investors s) (newInvestor s) (isLoading s) (error s)
    (editingInvestor s) (deleteConfirmation s) (f (expandedCards s)) (showConfetti s)
    (portfolioAnalysis s) (investmentLikelihood s) (suggestedActions s).

Definition with_showConfetti (v : bool) (s : State) : State :=
  mkState (investors s) (newInvestor s) (isLoading s) (error s)
    (editingInvestor s) (deleteConfirmation s) (expandedCards s) v
    (portfolioAnalysis s) (investmentLikelihood s) (suggestedActions s).

Definition with_portfolioAnalysis (v : list jsstring) (s : State) : State :=
  mkState (investors s) (newInvestor s) (isLoading s) (error s)
    (editingInvestor s) (deleteConfirmation s) (expandedCards s) (showConfetti s)
    v (investmentLikelihood s) (suggestedActions s).

Definition with_investmentLikelihood (v : option number) (s : State) : State :=
  mkState (investors s) (newInvestor s) (isLoading s) (error s)
    (editingInvestor s) (deleteConfirmation s) (expandedCards s) (showConfetti s)
    (portfolioAnalysis s) v (suggestedActions s).

Definition with_suggestedActions (v : list jsstring) (s : State) : State :=
  mkState (investors s) (newInvestor s) (isLoading s) (error s)
    (editingInvestor s) (deleteConfirmation s) (expandedCards s) (showConfetti s)
    (portfolioAnalysis s) (investmentLikelihood s) v.

(** ** Collaborators *)

(** [doc(db, 'users', user.uid, 'investors', investorId)] *)
Record DocumentReference : Type := mkRef {
  ref_uid : jsstring;
  ref_investorId : jsstring
}.

(** The object given to [updateDoc]. *)
Inductive UpdateData : Type :=
| SetCurrentStep (newStep : number)               (* { currentStep: newStep } *)
| SetStatus (newStatus : jsstring)                (* { status: newStatus } *)
| SetFields (updateData : InvestorData)           (* updateData *)
| UnionComment (newComment : Comment)             (* { comments: arrayUnion(newComment) } *)
| SetComments (updatedComments : list Comment).   (* { comments: updatedComments } *)

(** A call to the document store or to the analysis service. *)
Inductive Request : Type :=
| AddDoc (owner : jsstring) (data : InvestorData)
| UpdateDoc (ref : DocumentReference) (data : UpdateData)
| DeleteDoc (ref : DocumentReference)
| GetDoc (ref : DocumentReference)
| AnalyzeInvestorPortfolio (investor : Investor)
| PredictInvestmentLikelihood (investor : Investor)
| SuggestNextActions (investor : Investor) (step : number).

(** What [getDoc] resolves to, as far as the handlers read it:
    [investorDoc.data()?.comments]. *)
Record DocumentSnapshot : Type := mkSnapshot {
  snapshot_comments : option (list Comment)
}.

(** The closures given to [setTimeout]. *)
Inductive Callback : Type :=
| HideConfetti.   (* () => setShowConfetti(false) *)

Record Timer : Type := mkTimer {
  callback : Callback;
  due : N
}.

(** The component in its environment: the view state, the calls made so far
    (oldest first), the lines written with [console.error], the pending
    timers and the time in milliseconds. *)
Record World : Type := mkWorld {
  state : State;
  requests : list Request;
  console : list (jsstring * any);
  timers : list Timer;
  now : N
}.

Definition initialWorld : World :=
  {| state := initialState; requests := []; console := []; timers := []; now := 0%N |}.

(** ** Handlers as computations *)

(** A settled promise: the value it resolved to, or the reason it was
    rejected with. *)
Inductive outcome (A : Type) : Type :=
| Resolved (a : A)
| Rejected (reason : any).
Arguments Resolved {A} a.
Arguments Rejected {A} reason.

Definition M (A : Type) : Type := World -> outcome A * World.

#[global] Instance M_ret : MRet M := fun A a w => (Resolved a, w).

#[global] Instance M_bind : MBind M := fun A B f m w =>
  match m w with
  | (Resolved a, w') => f a w'
  | (Rejected e, w') => (Rejected e, w')
  end.

(** [try { body } catch (error) { handler error }] *)
Definition try_catch {A : Type} (body : M A) (handler : any -> M A) : M A :=
  fun w =>
    match body w with
    | (Resolved a, w') => (Resolved a, w')
    | (Rejected e, w') => handler e w'
    end.

(** [try { body } finally { finalizer }] *)
Definition try_finally {A : Type} (body : M A) (finalizer : M unit) : M A :=
  fun w =>
    match body w with
    | (r, w') =>
        match finalizer w' with
        | (Resolved _, w'') => (r, w'')
        | (Rejected e, w'') => (Rejected e, w'')
        end
    end.

(** The world a computation leaves. *)
Definition exec {A : Type} (m : M A) (w : World) : World := snd (m w).

Definition getState : M State := fun w => (Resolved (state w), w).

Definition modifyState (f : State -> State) : M unit := fun w =>
  (Resolved (), mkWorld (f (state w)) (requests w) (console w) (timers w) (now w)).

(** [await request], settled as [answer]. *)
Definition await {A : Type} (request : Request) (answer : outcome A) : M A := fun w =>
  (answer, mkWorld (state w) (requests w ++ [request]) (console w) (timers w) (now w)).

Definition console_error (label : jsstring) (error : any) : M unit := fun w =>
  (Resolved (), mkWorld (state w) (requests w) (console w ++ [(label, error)]) (timers w) (now w)).

(** [setTimeout(callback, delay)] *)
Definition setTimeout (cb : Callback) (delay : N) : M unit := fun w =>
  (Resolved (),
   mkWorld (state w) (requests w) (console w)
     (timers w ++ [mkTimer cb (now w + delay)%N]) (now w)).

Definition setInvestors f : M unit := modifyState (with_investors f).
Definition setNewInvestor v : M unit := modifyState (with_newInvestor v).
Definition setIsLoading v : M unit := modifyState (with_isLoading v).
Definition setError v : M unit := modifyState (with_error (Some v)).
Definition setEditingInvestor v : M unit := modifyState (with_editingInvestor v).
Definition setExpandedCards f : M unit := modifyState (with_expandedCards f).
Definition setShowConfetti v : M unit := modifyState (with_showConfetti v).
Definition setPortfolioAnalysis v : M unit := modifyState (with_portfolioAnalysis v).
Definition setInvestmentLikelihood v : M unit :=
  modifyState (with_investmentLikelihood (Some v)).
Definition setSuggestedActions v : M unit := modifyState (with_suggestedActions v).

(** [expandedCards[investor.id] || false], the [expanded] prop of a card. *)
Definition expanded (expandedCards : gmap jsstring bool) (investorId : jsstring) : bool :=
  default false (expandedCards !! investorId).

(** [setExpandedCards(prev => ({ ...prev, [investorId]: !prev[investorId] }))];
    a missing entry reads as undefined, whose negation is [true]. *)
Definition toggleCardExpansion (investorId : jsstring) : M unit :=
  setExpandedCards
    (fun prev => <[investorId := negb (default false (prev !! investorId))]> prev).

(** *** Timers *)

Definition run_callback (cb : Callback) (s : State) : State :=
  match cb with
  | HideConfetti => with_showConfetti false s
  end.

(** [elapse dt]: [dt] milliseconds pass; the timers that are due run in the
    order they were set, the others stay pending. *)
Definition elapse (dt : N) (w : World) : World :=
  let t := (now w + dt)%N in
  let is_due (tm : Timer) := (due tm <=? t)%N in
  mkWorld
    (fold_left (fun s tm => run_callback (callback tm) s)
               (List.filter is_due (timers w)) (state w))
    (requests w) (console w)
    (List.filter (fun tm => negb (is_due tm)) (timers w))
    t.

(** ** The handlers of [InvestmentPipeline] *)

Definition investorRef (user : User) (investorId : jsstring) : DocumentReference :=
  {| ref_uid := uid user; ref_investorId := investorId |}.

Definition handleAddInvestor (user : option User) (added : outcome unit) : M unit :=
  match user with
  | None => mret ()
  | Some u =>
      setIsLoading true;;
      try_finally
        (try_catch
           (s ← getState;
            await (AddDoc (uid u) (newInvestor s)) added;;
            setNewInvestor emptyInvestor)
           (fun error =>
              console_error (lit "Error adding investor:") error;;
              setError (lit "Failed to add investor. Please try again.")))
        (setIsLoading false)
  end.

Definition handleUpdateInvestorStep (user : option User) (investorId : jsstring)
    (newStep : number) (updated : outcome unit) : M unit :=
  match user with
  | None => mret ()
  | Some u =>
      try_catch
        (await (UpdateDoc (investorRef u investorId) (SetCurrentStep newStep)) updated;;
         if num_eq newStep lastStep then
           setShowConfetti true;;
           setTimeout HideConfetti 5000
         else mret ())
        (fun error =>
           console_error (lit "Error updating investor step:") error;;
           setError (lit "Failed to update investor step. Please try again."))
  end.

Definition handleUpdateInvestorStatus (user : option User) (investorId : jsstring)
    (newStatus : jsstring) (updated : outcome unit) : M unit :=
  match user with
  | None => mret ()
  | Some u =>
      try_catch
        (await (UpdateDoc (investorRef u investorId) (SetStatus newStatus)) updated)
        (fun error =>
           console_error (lit "Error updating investor status:") error;;
           setError (lit "Failed to update investor status. Please try again."))
  end.

Definition handleDeleteInvestor (user : option User) (investorId : jsstring)
    (deleted : outcome unit) : M unit :=
  match user with
  | None => mret ()
  | Some u =>
      try_catch
        (await (DeleteDoc (investorRef u investorId)) deleted;;
         setInvestors
           (List.filter (fun investor : Investor => negb (str_eq (id investor) investorId))))
        (fun error =>
           console_error (lit "Error deleting investor:") error;;
           setError (lit "Failed to delete investor. Please try again."))
  end.

Definition handleEditInvestor (user : option User) (updatedInvestor : Investor)
    (updated : outcome unit) (analysed : outcome (list jsstring))
    (predicted : outcome number) (suggested : outcome (list jsstring)) : M unit :=
  match user with
  | None => mret ()
  | Some u =>
      try_catch
        (let updateData := fields updatedInvestor in
         await (UpdateDoc (investorRef u (id updatedInvestor)) (SetFields updateData))
               updated;;
         setInvestors
           (map (fun investor : Investor =>
                   if str_eq (id investor) (id updatedInvestor)
                   then updatedInvestor else investor));;
         setEditingInvestor None;;
         portfolio ← await (AnalyzeInvestorPortfolio updatedInvestor) analysed;
         setPortfolioAnalysis portfolio;;
         likelihood ← await (PredictInvestmentLikelihood updatedInvestor) predicted;
         setInvestmentLikelihood likelihood;;
         actions ← await (SuggestNextActions updatedInvestor (currentStep updatedInvestor))
                         suggested;
         setSuggestedActions actions)
        (fun error =>
           console_error (lit "Error updating investor:") error;;
           setError (lit "Failed to update investor. Please try again."))
  end.

(** [investorDoc.data()?.comments || []] *)
Definition currentComments (investorDoc : DocumentSnapshot) : list Comment :=
  default [] (snapshot_comments investorDoc).

Definition handleUpdateComment (user : option User) (investorId commentId newText : jsstring)
    (fetched : outcome DocumentSnapshot) (updated : outcome unit) : M unit :=
  match user with
  | None => mret ()
  | Some u =>
      try_catch
        (investorDoc ← await (GetDoc (investorRef u investorId)) fetched;
         let updatedComments :=
           map (fun comment : Comment =>
                  if str_eq (comment_id comment) commentId
                  then mkComment (comment_id comment) newText (date comment)
                  else comment)
               (currentComments investorDoc) in
         await (UpdateDoc (investorRef u investorId) (SetComments updatedComments)) updated)
        (fun error =>
           console_error (lit "Error updating comment:") error;;
           setError (lit "Failed to update comment. Please try again."))
  end.

Definition handleDeleteComment (user : option User) (investorId commentId : jsstring)
    (fetched : outcome DocumentSnapshot) (updated : outcome unit) : M unit :=
  match user with
  | None => mret ()
  | Some u =>
      try_catch
        (investorDoc ← await (GetDoc (investorRef u investorId)) fetched;
         let updatedComments :=
           List.filter (fun comment : Comment => negb (str_eq (comment_id comment) commentId))
                       (currentComments investorDoc) in
         await (UpdateDoc (investorRef u investorId) (SetComments updatedComments)) updated)
        (fun error =>
           console_error (lit "Error deleting comment:") error;;
           setError (lit "Failed to delete comment. Please try again."))
  end.

(** The local state of one [InvestorCard]. *)
Record CardState : Type := mkCard {
  newComment : jsstring;
  editingCommentId : option jsstring;
  editingCommentText : jsstring
}.

Definition setNewComment (v : jsstring) (card : CardState) : CardState :=
  mkCard v (editingCommentId card) (editingCommentText card).

Section Clock.

(** [Number.prototype.toString] and [Date.prototype.toISOString], applied
    to the current time in milliseconds. *)
Variable toString : N -> jsstring.
Variable toISOString : N -> jsstring.

Definition handleAddComment (user : option User) (investorId commentText : jsstring)
    (updated : outcome unit) : M unit :=
  match user with
  | None => mret ()
  | Some u =>
      try_catch
        (fun w =>
           let newComment :=
             {| comment_id := toString (now w);
                text := commentText;
                date := toISOString (now w) |} in
           await (UpdateDoc (investorRef u investorId) (UnionComment newComment))
                 updated w)
        (fun error =>
           console_error (lit "Error adding comment:") error;;
           setError (lit "Failed to add comment. Please try again."))
  end.

(** [handleCommentSubmit] of the card showing [investor]. *)
Definition handleCommentSubmit (user : option User) (investor : Investor)
    (updated : outcome unit) (card : CardState) : M CardState :=
  if str_truthy (trim (newComment card)) then
    handleAddComment user (id investor) (trim (newComment card)) updated;;
    mret (setNewComment [] card)
  else mret card.

End Clock.

(** *** The controls of an expanded card *)

(** A disabled button ignores clicks. *)
Definition click (disabled : bool) (onClick : M unit) : M unit :=
  if disabled then mret () else onClick.

Definition previousStep_disabled (investor : Investor) : bool :=
  num_eq (currentStep investor) (Num 0).

Definition previousStep_onClick (user : option User) (investor : Investor)
    (updated : outcome unit) : M unit :=
  if num_gt (currentStep investor) (Num 0) then
    handleUpdateInvestorStep user (id investor)
      (num_sub (currentStep investor) (Num 1)) updated
  else mret ().

Definition nextStep_disabled (investor : Investor) : bool :=
  num_eq (currentStep investor) lastStep.

Definition nextStep_onClick (user : option User) (investor : Investor)
    (updated : outcome unit) : M unit :=
  if num_lt (currentStep investor) lastStep then
    handleUpdateInvestorStep user (id investor)
      (num_add (currentStep investor) (Num 1)) updated
  else mret ().

Definition statusToggle_onClick (user : option User) (investor : Investor)
    (updated : outcome unit) : M unit :=
  handleUpdateInvestorStatus user (id investor)
    (if str_eq (status investor) (lit "active") then lit "paused" else lit "active")
    updated.

Definition statusToggle_label (investor : Investor) : jsstring :=
  if str_eq (status investor) (lit "active") then lit "Pause" else lit "Activate".

(** *** Editing a comment *)

(** [handleEditComment]: the card enters edit mode on one comment. *)
Definition handleEditComment (commentId currentText : jsstring) (card : CardState)
  : CardState :=
  mkCard (newComment card) (Some commentId) currentText.

(** [handleSaveEditedComment] of the card showing [investor]; the guard is
    [editingCommentId && editingCommentText.trim()], so a null or empty id
    and a blank text both skip the body. *)
Definition handleSaveEditedComment (user : option User) (investor : Investor)
    (fetched : outcome DocumentSnapshot) (updated : outcome unit) (card : CardState)
  : M CardState :=
  match editingCommentId card with
  | Some commentId =>
      if str_truthy commentId && str_truthy (trim (editingCommentText card)) then
        handleUpdateComment user (id investor) commentId
          (trim (editingCommentText card)) fetched updated;;
        mret (mkCard (newComment card) None [])
      else mret card
  | None => mret card
  end.

(** *** The add form and the delete dialog *)

(** The [disabled] prop of the Add Investor button:
    [isLoading || !newInvestor.name || !newInvestor.company || !newInvestor.email]. *)
Definition addInvestor_disabled (s : State) : bool :=
  isLoading s
  || negb (str_truthy (name (newInvestor s)))
  || negb (str_truthy (company (newInvestor s)))
  || negb (str_truthy (email (newInvestor s))).

Definition with_deleteConfirmation (v : option jsstring) (s : State) : State :=
  mkState (investors s) (newInvestor s) (isLoading s) (error s)
    (editingInvestor s) v (expandedCards s) (showConfetti s)
    (portfolioAnalysis s) (investmentLikelihood s) (suggestedActions s).

Definition setDeleteConfirmation v : M unit := modifyState (with_deleteConfirmation v).

(** The Delete button of a card: [setDeleteConfirmation(investor.id)]. *)
Definition delete_onClick (investor : Investor) : M unit :=
  setDeleteConfirmation (Some (id investor)).

(** The Delete button of the confirmation dialog:
    [if (deleteConfirmation) { handleDeleteInvestor(deleteConfirmation);
    setDeleteConfirmation(null); }]. *)
Definition confirmDeletion_onClick (user : option User) (deleted : outcome unit) : M unit :=
  s ← getState;
  match deleteConfirmation s with
  | Some investorId =>
      if str_truthy investorId then
        handleDeleteInvestor user investorId deleted;;
        setDeleteConfirmation None
      else mret ()
  | None => mret ()
  end.

(** ** Notions the properties are stated with *)

(** The amount a record is ranked by when sorting by investment amount: its
    own, and zero when the amount is undefined or falsy (0 or NaN). *)
Definition comparedAmount (investor : Investor) : Z :=
  match investmentAmount investor with
  | Some (Num z) => z
  | Some NaN => 0
  | None => 0
  end.

(** The calls a computation makes when it runs from [w], oldest first. *)
Definition issued {A : Type} (m : M A) (w : World) : list Request :=
  drop (length (requests w)) (requests (exec m w)).

(** The step indices that [updateDoc] calls in [rs] write, oldest first. *)
Definition writtenSteps (rs : list Request) : list number :=
  omap (fun r => match r with
                 | UpdateDoc _ (SetCurrentStep n) => Some n
                 | _ => None
                 end) rs.

(** The calls in [rs] that change the document store. *)
Definition isWrite (r : Request) : bool :=
  match r with
  | AddDoc _ _ | UpdateDoc _ _ | DeleteDoc _ => true
  | _ => false
  end.

(** The operations that write to the document store, one per handler. *)
Inductive WriteOperation : Type :=
| AddInvestor
| UpdateInvestorStep
| UpdateInvestorStatus
| DeleteInvestor
| EditInvestor
| AddComment
| UpdateComment
| DeleteComment.

Definition writeOperations : list WriteOperation :=
  [ AddInvestor; UpdateInvestorStep; UpdateInvestorStatus; DeleteInvestor;
    EditInvestor; AddComment; UpdateComment; DeleteComment ].

(** The literal the [catch] block of each handler passes to [setError]. *)
Definition failureMessage (op : WriteOperation) : jsstring :=
  match op with
  | AddInvestor => lit "Failed to add investor. Please try again."
  | UpdateInvestorStep => lit "Failed to update investor step. Please try again."
  | UpdateInvestorStatus => lit "Failed to update investor status. Please try again."
  | DeleteInvestor => lit "Failed to delete investor. Please try again."
  | EditInvestor => lit "Failed to update investor. Please try again."
  | AddComment => lit "Failed to add comment. Please try again."
  | UpdateComment => lit "Failed to update comment. Please try again."
  | DeleteComment => lit "Failed to delete comment. Please try again."
  end.

(** The label each [catch] block logs the cause under. *)
Definition failureLabel (op : WriteOperation) : jsstring :=
  match op with
  | AddInvestor => lit "Error adding investor:"
  | UpdateInvestorStep => lit "Error updating investor step:"
  | UpdateInvestorStatus => lit "Error updating investor status:"
  | DeleteInvestor => lit "Error deleting investor:"
  | EditInvestor => lit "Error updating investor:"
  | AddComment => lit "Error adding comment:"
  | UpdateComment => lit "Error updating comment:"
  | DeleteComment => lit "Error deleting comment:"
  end.

(** The handler of [op], run from [w], reported a failure with cause
    [reason] when it left [w']: the error state holds the operation's
    message and the cause went to the console, under the operation's label. *)
Definition reported (op : WriteOperation) (reason : any) (w w' : World) : Prop :=
  error (state w') = Some (failureMessage op)
  /\ console w' = console w ++ [(failureLabel op, reason)].

(** ** Sample data *)

Definition sampleUser : User :=
  {| uid := lit "u1"; user_email := None; displayName := None |}.

Definition sampleInvestor (i n st : string) (step : number) (amount : option number)
  : Investor :=
  {| id := lit i;
     fields :=
       {| name := lit n; company := lit "Acme"; email := lit "a@b.c"; phone := [];
          website := []; currentStep := step; status := lit st;
          investmentAmount := amount; lastContact := []; notes := []; comments := [];
          industry := []; fundSize := Num 0; investmentStage := []; location := [];
          importance := lit "medium" |} |}.

Definition alice : Investor := sampleInvestor "i1" "Alice" "active" (Num 0) (Some (Num 500)).
Definition bob : Investor := sampleInvestor "i2" "Bob" "paused" (Num 6) None.
Definition carol : Investor := sampleInvestor "i3" "Carol" "closed" (Num 3) (Some (Num 900)).
Definition dave : Investor := sampleInvestor "i4" "Dave" "paused" (Num 5) (Some NaN).

(** A comparison by code units, standing in for the host's [localeCompare]
    where a concrete one is needed. *)
Fixpoint codeUnitCompare (a b : jsstring) : number :=
  match a, b with
  | [], [] => Num 0
  | [], _ :: _ => Num (-1)
  | _ :: _, [] => Num 1
  | x :: a', y :: b' =>
      if (x <? y)%N then Num (-1)
      else if (y <? x)%N then Num 1
      else codeUnitCompare a' b'
  end.

(** * Properties *)

(** ** Strings and numbers *)

Lemma str_eq_true (a b : jsstring) : str_eq a b = true <-> a = b.
Proof. unfold str_eq. apply bool_decide_eq_true. Qed.

Lemma str_eq_false (a b : jsstring) : str_eq a b = false <-> a <> b.
Proof. unfold str_eq. apply bool_decide_eq_false. Qed.

Lemma str_eq_refl (a : jsstring) : str_eq a a = true.
Proof. now apply str_eq_true. Qed.

Lemma lastStep_is_6 : lastStep = Num 6.
Proof. reflexivity. Qed.

(** ** Expanding and collapsing cards *)

(** C8.  Toggling the expansion of the card of [investorId] negates the
    [expanded] flag of that id; the entry of every other id in the map is
    what it was, and so is its flag; nothing else in the component changes. *)
Theorem toggleCardExpansion_flips_only_that_id (investorId : jsstring) (w : World) :
  let w' := exec (toggleCardExpansion investorId) w in
  expanded (expandedCards (state w')) investorId
    = negb (expanded (expandedCards (state w)) investorId)
  /\ (forall other : jsstring,
        other <> investorId ->
        expandedCards (state w') !! other = expandedCards (state w) !! other
        /\ expanded (expandedCards (state w')) other
           = expanded (expandedCards (state w)) other)
  /\ with_expandedCards (fun _ => expandedCards (state w)) (state w') = state w
  /\ (requests w', console w', timers w', now w')
     = (requests w, console w, timers w, now w).
Proof.
  cbn. unfold expanded. repeat split.
  - now rewrite lookup_insert_eq.
  - now rewrite lookup_insert_ne.
  - now rewrite lookup_insert_ne.
  - now destruct w as [[] ? ? ? ?].
Qed.

Lemma toggleCardExpansion_flips_only_that_id_witness :
  let w := exec (toggleCardExpansion (lit "b")) initialWorld in
  expanded (expandedCards (state (exec (toggleCardExpansion (lit "a")) w))) (lit "a") = true
  /\ expanded (expandedCards (state (exec (toggleCardExpansion (lit "a")) w))) (lit "b") = true.
Proof.
  intros w.
  destruct (toggleCardExpansion_flips_only_that_id (lit "a") w) as (Hflip & Hframe & _).
  split.
  - rewrite Hflip. reflexivity.
  - destruct (Hframe (lit "b")) as [_ ->]; [discriminate | reflexivity].
Defined.

(** ** Filtering by status *)

(** C4.  With the selection "all" the filter returns the list unchanged;
    with any other selection, in particular "active", "paused" and "closed",
    it returns exactly the records whose status is the selection, in their
    order and with their multiplicity. *)
Theorem filteredInvestors_by_status (investors : list Investor) :
  filteredInvestors (lit "all") investors = investors
  /\ forall filterStatus : jsstring,
       filterStatus <> lit "all" ->
       filteredInvestors filterStatus investors
         = List.filter (fun investor : Investor =>
                          bool_decide (status investor = filterStatus)) investors
       /\ forall investor : Investor,
            In investor (filteredInvestors filterStatus investors)
            <-> In investor investors /\ status investor = filterStatus.
Proof.
  split.
  - unfold filteredInvestors. rewrite str_eq_refl.
    induction investors as [|i l IH]; simpl; [reflexivity | now rewrite IH].
  - intros filterStatus Hne. apply str_eq_false in Hne.
    assert (Heq : filteredInvestors filterStatus investors
                  = List.filter (fun investor : Investor =>
                                   bool_decide (status investor = filterStatus)) investors).
    { unfold filteredInvestors. rewrite Hne. reflexivity. }
    split; [exact Heq |].
    intros investor. rewrite Heq, filter_In, bool_decide_eq_true. reflexivity.
Qed.

(** ** Sorting by investment amount *)

Section KeyedSort.

Context {A : Type} (key : A -> Z) (comparefn : A -> A -> number).

(** The comparator answers with the difference of the keys, second
    argument first: a descending comparator. *)
Hypothesis comparefn_key : forall a b, comparefn a b = Num (key b - key a).

Lemma sort_insert_Permutation (x : A) (l : list A) :
  Permutation (x :: l) (sort_insert comparefn x l).
Proof.
  induction l as [|y l IH]; simpl; [reflexivity |].
  destruct (num_gt (comparefn x y) (Num 0)); [| reflexivity].
  rewrite perm_swap. now constructor.
Qed.

Lemma array_sort_Permutation (l : list A) : Permutation l (array_sort comparefn l).
Proof.
  induction l as [|x l IH]; simpl; [reflexivity |].
  rewrite <- sort_insert_Permutation. now constructor.
Qed.

Lemma sort_insert_descending (x : A) (l : list A) :
  StronglySorted (fun a b => key b <= key a) l ->
  StronglySorted (fun a b => key b <= key a) (sort_insert comparefn x l).
Proof.
  induction 1 as [|y l Hsorted IH Hall]; simpl.
  - repeat constructor.
  - rewrite comparefn_key. simpl.
    destruct (Z.ltb_spec 0 (key y - key x)) as [Hlt | Hge].
    + constructor; [exact IH |].
      apply (Permutation_Forall (sort_insert_Permutation x l)).
      constructor; [lia | exact Hall].
    + constructor; [now constructor |].
      constructor; [lia |].
      eapply Forall_impl; [exact Hall |]. simpl. intros z Hz. lia.
Qed.

Lemma array_sort_descending (l : list A) :
  StronglySorted (fun a b => key b <= key a) (array_sort comparefn l).
Proof.
  induction l as [|x l IH]; simpl; [constructor |].
  now apply sort_insert_descending.
Qed.

End KeyedSort.

Lemma amountOrZero_comparedAmount (investor : Investor) :
  amountOrZero (investmentAmount investor) = Num (comparedAmount investor).
Proof.
  unfold amountOrZero, comparedAmount.
  destruct (investmentAmount investor) as [[|z]|]; simpl; try reflexivity.
  destruct (Z.eqb_spec z 0) as [-> |]; reflexivity.
Qed.

Lemma compareInvestors_by_amount localeCompare (a b : Investor) :
  compareInvestors localeCompare (lit "investmentAmount") a b
  = Num (comparedAmount b - comparedAmount a).
Proof.
  unfold compareInvestors.
  replace (str_eq (lit "investmentAmount") (lit "name")) with false by reflexivity.
  replace (str_eq (lit "investmentAmount") (lit "company")) with false by reflexivity.
  rewrite str_eq_refl, !amountOrZero_comparedAmount. reflexivity.
Qed.

(** C3.  Sorting by "investmentAmount" returns the filtered records (all of
    them, each as often as before) in descending order of amount, where the
    amount of a record is taken as zero when it is undefined or falsy:
    every record is ranked at least as high as all that follow it.  The
    ranking amount is the one the comparator computes with [|| 0]. *)
Theorem sortedInvestors_by_amount_descending
    (localeCompare : jsstring -> jsstring -> number)
    (filterStatus : jsstring) (investors : list Investor) :
  StronglySorted (fun a b : Investor => comparedAmount b <= comparedAmount a)
    (sortedInvestors localeCompare (lit "investmentAmount") filterStatus investors)
  /\ Permutation (filteredInvestors filterStatus investors)
       (sortedInvestors localeCompare (lit "investmentAmount") filterStatus investors)
  /\ (forall a b : Investor,
        compareInvestors localeCompare (lit "investmentAmount") a b
        = num_sub (amountOrZero (investmentAmount b)) (amountOrZero (investmentAmount a))
        /\ amountOrZero (investmentAmount a) = Num (comparedAmount a)).
Proof.
  unfold sortedInvestors. split; [| split].
  - apply array_sort_descending. apply compareInvestors_by_amount.
  - apply array_sort_Permutation.
  - intros a b. split; [| apply amountOrZero_comparedAmount].
    rewrite compareInvestors_by_amount, !amountOrZero_comparedAmount. reflexivity.
Qed.

Example sortedInvestors_sample :
  sortedInvestors codeUnitCompare (lit "investmentAmount") (lit "all")
    [alice; bob; carol; dave] = [carol; alice; bob; dave].
Proof. reflexivity. Qed.

Lemma filteredInvestors_by_status_witness :
  filteredInvestors (lit "paused") [alice; bob; carol; dave] = [bob; dave]
  /\ (In bob (filteredInvestors (lit "paused") [alice; bob; carol; dave])
      <-> In bob [alice; bob; carol; dave] /\ status bob = lit "paused").
Proof.
  destruct (filteredInvestors_by_status [alice; bob; carol; dave]) as [_ H].
  destruct (H (lit "paused")) as [Heq Hin]; [discriminate |].
  split; [rewrite Heq; reflexivity | apply Hin].
Defined.

(** ** The subscription handler *)

Lemma onSnapshot_handler_map (querySnapshot : list QueryDocumentSnapshot) :
  onSnapshot_handler querySnapshot = map snapshotInvestor querySnapshot.
Proof.
  unfold onSnapshot_handler.
  enough (H : forall acc : list object,
             fold_left (fun investorList doc => investorList ++ [snapshotInvestor doc])
                       querySnapshot acc
             = acc ++ map snapshotInvestor querySnapshot) by apply H.
  induction querySnapshot as [|doc l IH]; intros acc; simpl.
  - now rewrite app_nil_r.
  - rewrite IH, <- app_assoc. reflexivity.
Qed.

Lemma typeof_number (v : any) :
  typeof v = lit "number" <-> exists n, v = ANumber n.
Proof.
  split.
  - destruct v; try discriminate. eauto.
  - intros [n ->]. reflexivity.
Qed.

Lemma snapshotInvestor_currentStep (doc : QueryDocumentSnapshot) :
  snapshotInvestor doc !! lit "currentStep"
  = Some (match doc_data doc !! lit "currentStep" with
          | Some (ANumber n) => ANumber n
          | _ => ANumber (Num 0)
          end).
Proof.
  unfold snapshotInvestor, prop. rewrite lookup_insert_eq.
  destruct (doc_data doc !! lit "currentStep") as [[]|]; reflexivity.
Qed.

(** C9.  Every record the subscription handler hands to the local list has
    a [currentStep] property of type number: the stored one when that is a
    number, and 0 when the stored field is missing or of any other type. *)
Theorem onSnapshot_handler_currentStep_numeric (querySnapshot : list QueryDocumentSnapshot) :
  Forall (fun investor : object =>
            typeof (prop investor (lit "currentStep")) = lit "number"
            /\ exists n : number, investor !! lit "currentStep" = Some (ANumber n))
         (onSnapshot_handler querySnapshot)
  /\ Forall2 (fun (doc : QueryDocumentSnapshot) (investor : object) =>
                prop investor (lit "currentStep")
                = if str_eq (typeof (prop (doc_data doc) (lit "currentStep"))) (lit "number")
                  then prop (doc_data doc) (lit "currentStep")
                  else ANumber (Num 0))
       querySnapshot (onSnapshot_handler querySnapshot).
Proof.
  rewrite onSnapshot_handler_map. split.
  - apply List.Forall_forall. intros investor [doc [<- _]]%in_map_iff.
    unfold prop. rewrite snapshotInvestor_currentStep.
    destruct (doc_data doc !! lit "currentStep") as [[]|]; cbn [default typeof]; eauto.
  - induction querySnapshot as [|doc l IH]; simpl; constructor; [| exact IH].
    unfold prop at 1. rewrite snapshotInvestor_currentStep. unfold prop.
    destruct (doc_data doc !! lit "currentStep") as [[]|]; reflexivity.
Qed.

Example onSnapshot_handler_sample :
  map (fun o : object => prop o (lit "currentStep"))
    (onSnapshot_handler
       [ mkDoc (lit "i1") {[ lit "name" := AString (lit "Alice");
                             lit "currentStep" := ANumber (Num 4) ]};
         mkDoc (lit "i2") {[ lit "currentStep" := AString (lit "4") ]};
         mkDoc (lit "i3") ∅ ])
  = [ANumber (Num 4); ANumber (Num 0); ANumber (Num 0)].
Proof. vm_compute. reflexivity. Qed.

(** ** Running handlers *)

(** Unfolds the monad so that a handler applied to a world computes. *)
Ltac run_handler :=
  cbv [exec mbind mret M_bind M_ret try_catch try_finally await console_error
       getState modifyState setTimeout setInvestors setNewInvestor setIsLoading
       setError setEditingInvestor setExpandedCards setShowConfetti
       setPortfolioAnalysis setInvestmentLikelihood setSuggestedActions click
       fst snd state requests console timers now].

(** Every handler is guarded by [if (user)]: signed out, it does nothing. *)
Lemma signed_out_handlers_do_nothing (toString toISOString : N -> jsstring) (w : World) :
  (forall added, exec (handleAddInvestor None added) w = w)
  /\ (forall investorId newStep updated,
        exec (handleUpdateInvestorStep None investorId newStep updated) w = w)
  /\ (forall investorId newStatus updated,
        exec (handleUpdateInvestorStatus None investorId newStatus updated) w = w)
  /\ (forall investorId deleted, exec (handleDeleteInvestor None investorId deleted) w = w)
  /\ (forall updatedInvestor updated analysed predicted suggested,
        exec (handleEditInvestor None updatedInvestor updated analysed predicted suggested) w
        = w)
  /\ (forall investorId commentText updated,
        exec (handleAddComment toString toISOString None investorId commentText updated) w
        = w)
  /\ (forall investorId commentId newText fetched updated,
        exec (handleUpdateComment None investorId commentId newText fetched updated) w = w)
  /\ (forall investorId commentId fetched updated,
        exec (handleDeleteComment None investorId commentId fetched updated) w = w).
Proof. repeat split. Qed.

(** ** The status toggle *)

(** C10.  A click on the status toggle sends exactly one update, of the
    status only: "paused" when the record's status is "active", and "active"
    whenever it is anything else; so a "closed" record is reactivated, never
    paused.  The label follows the same test. *)
Theorem statusToggle_writes (u : User) (investor : Investor)
    (updated : outcome unit) (w : World) :
  (exists newStatus : jsstring,
     requests (exec (statusToggle_onClick (Some u) investor updated) w)
     = requests w ++ [UpdateDoc (investorRef u (id investor)) (SetStatus newStatus)]
     /\ (status investor = lit "active" -> newStatus = lit "paused")
     /\ (status investor <> lit "active" -> newStatus = lit "active")
     /\ (status investor = lit "closed" -> newStatus = lit "active"))
  /\ (statusToggle_label investor = lit "Pause" <-> status investor = lit "active").
Proof.
  unfold statusToggle_onClick, statusToggle_label, handleUpdateInvestorStatus.
  destruct (str_eq (status investor) (lit "active")) eqn:Hactive.
  - apply str_eq_true in Hactive. split; [| now split].
    exists (lit "paused"). split.
    + destruct updated; run_handler; reflexivity.
    + split; [reflexivity | split; [tauto |]].
      intros Hclosed. rewrite Hclosed in Hactive. discriminate Hactive.
  - apply str_eq_false in Hactive. split; [| split; [discriminate | tauto]].
    exists (lit "active"). split.
    + destruct updated; run_handler; reflexivity.
    + repeat split; try reflexivity; tauto.
Qed.

Lemma statusToggle_writes_witness :
  requests (exec (statusToggle_onClick (Some sampleUser) carol (Resolved ())) initialWorld)
  = [UpdateDoc (investorRef sampleUser (lit "i3")) (SetStatus (lit "active"))].
Proof.
  destruct (statusToggle_writes sampleUser carol (Resolved ()) initialWorld)
    as [(newStatus & Hreq & _ & _ & Hclosed) _].
  rewrite Hreq, Hclosed; reflexivity.
Defined.

(** ** Stage transitions *)

Lemma issued_app {A : Type} (m : M A) (w : World) (rs : list Request) :
  requests (exec m w) = requests w ++ rs -> issued m w = rs.
Proof. unfold issued. intros ->. apply drop_app_length. Qed.

Lemma issued_mret {A : Type} (a : A) (w : World) : issued (mret a) w = [].
Proof. apply issued_app. run_handler. now rewrite app_nil_r. Qed.

Lemma handleUpdateInvestorStep_issued (u : User) (investorId : jsstring)
    (newStep : number) (updated : outcome unit) (w : World) :
  issued (handleUpdateInvestorStep (Some u) investorId newStep updated) w
  = [UpdateDoc (investorRef u investorId) (SetCurrentStep newStep)].
Proof.
  apply issued_app. unfold handleUpdateInvestorStep.
  destruct updated as [[]|e]; run_handler; [| reflexivity].
  destruct (num_eq newStep lastStep); reflexivity.
Qed.

Example previousStep_at_first_stage :
  previousStep_disabled alice = true
  /\ issued (previousStep_onClick (Some sampleUser) alice (Resolved ())) initialWorld = [].
Proof. split; reflexivity. Qed.

Example nextStep_at_last_stage :
  nextStep_disabled bob = true
  /\ issued (nextStep_onClick (Some sampleUser) bob (Resolved ())) initialWorld = [].
Proof. split; reflexivity. Qed.

(** C2.  For a record whose [currentStep] is an index [z] of the seven
    stages: Previous is disabled exactly when [z = 0] and Next exactly when
    [z = 6]; a click on Previous writes [z - 1] and nothing else (nothing at
    all when disabled), a click on Next writes [z + 1]; so every step index
    either control writes is again between 0 and 6 and differs from [z] by
    exactly one. *)
Theorem stage_controls_move_by_one_within_bounds (u : User) (investor : Investor) (z : Z)
    (updated : outcome unit) (w : World) :
  currentStep investor = Num z ->
  0 <= z <= 6 ->
  (previousStep_disabled investor = true <-> z = 0)
  /\ (nextStep_disabled investor = true <-> z = 6)
  /\ issued (click (previousStep_disabled investor)
               (previousStep_onClick (Some u) investor updated)) w
     = (if decide (z = 0) then []
        else [UpdateDoc (investorRef u (id investor)) (SetCurrentStep (Num (z - 1)))])
  /\ issued (click (nextStep_disabled investor)
               (nextStep_onClick (Some u) investor updated)) w
     = (if decide (z = 6) then []
        else [UpdateDoc (investorRef u (id investor)) (SetCurrentStep (Num (z + 1)))])
  /\ Forall (fun n : number => exists z' : Z, n = Num z' /\ 0 <= z' <= 6 /\ Z.abs (z' - z) = 1)
       (writtenSteps
          (issued (click (previousStep_disabled investor)
                     (previousStep_onClick (Some u) investor updated)) w
           ++ issued (click (nextStep_disabled investor)
                        (nextStep_onClick (Some u) investor updated)) w)).
Proof.
  intros Hstep Hrange.
  unfold previousStep_disabled, nextStep_disabled, previousStep_onClick, nextStep_onClick.
  rewrite Hstep, lastStep_is_6. unfold num_lt. cbn [num_eq num_gt num_sub num_add].
  assert (Hprev : issued (click (z =? 0)
                    (if 0 <? z
                     then handleUpdateInvestorStep (Some u) (id investor) (Num (z - 1)) updated
                     else mret ())) w
                  = if decide (z = 0) then []
                    else [UpdateDoc (investorRef u (id investor)) (SetCurrentStep (Num (z - 1)))]).
  { unfold click. destruct (Z.eqb_spec z 0) as [-> | Hne].
    - rewrite decide_True by reflexivity. apply issued_mret.
    - rewrite decide_False by exact Hne.
      destruct (Z.ltb_spec 0 z); [| lia]. apply handleUpdateInvestorStep_issued. }
  assert (Hnext : issued (click (z =? 6)
                    (if z <? 6
                     then handleUpdateInvestorStep (Some u) (id investor) (Num (z + 1)) updated
                     else mret ())) w
                  = if decide (z = 6) then []
                    else [UpdateDoc (investorRef u (id investor)) (SetCurrentStep (Num (z + 1)))]).
  { unfold click. destruct (Z.eqb_spec z 6) as [-> | Hne].
    - rewrite decide_True by reflexivity. apply issued_mret.
    - rewrite decide_False by exact Hne.
      destruct (Z.ltb_spec z 6); [| lia]. apply handleUpdateInvestorStep_issued. }
  rewrite Hprev, Hnext.
  split; [apply Z.eqb_eq |]. split; [apply Z.eqb_eq |].
  split; [reflexivity |]. split; [reflexivity |].
  destruct (decide (z = 0)), (decide (z = 6)); cbn;
    repeat constructor; eexists; (split; [reflexivity | lia]).
Qed.

Lemma stage_controls_move_by_one_within_bounds_witness :
  issued (click (previousStep_disabled dave)
            (previousStep_onClick (Some sampleUser) dave (Resolved ()))) initialWorld
  = [UpdateDoc (investorRef sampleUser (lit "i4")) (SetCurrentStep (Num 4))]
  /\ issued (click (nextStep_disabled dave)
               (nextStep_onClick (Some sampleUser) dave (Resolved ()))) initialWorld
     = [UpdateDoc (investorRef sampleUser (lit "i4")) (SetCurrentStep (Num 6))].
Proof.
  destruct (stage_controls_move_by_one_within_bounds sampleUser dave 5 (Resolved ())
              initialWorld) as (_ & _ & Hprev & Hnext & _);
    [reflexivity | lia |].
  split; [rewrite Hprev | rewrite Hnext]; reflexivity.
Defined.

(** ** The celebration *)

Lemma num_eq_6 (n : number) : num_eq n (Num 6) = true <-> n = Num 6.
Proof.
  destruct n as [|z]; simpl; [split; discriminate |].
  rewrite Z.eqb_eq. split; [now intros -> | now intros [= ->]].
Qed.

Lemma handleUpdateInvestorStep_resolved (u : User) (investorId : jsstring)
    (newStep : number) (w : World) :
  exec (handleUpdateInvestorStep (Some u) investorId newStep (Resolved ())) w
  = let sent := requests w ++ [UpdateDoc (investorRef u investorId) (SetCurrentStep newStep)] in
    if num_eq newStep lastStep
    then mkWorld (with_showConfetti true (state w)) sent (console w)
           (timers w ++ [mkTimer HideConfetti (now w + 5000)]) (now w)
    else mkWorld (state w) sent (console w) (timers w) (now w).
Proof.
  unfold handleUpdateInvestorStep. run_handler.
  destruct (num_eq newStep lastStep); reflexivity.
Qed.

(** C6.  When a stage update has been written, the celebration is started
    if and only if the step written is 6, the index of the last of the 7
    stages: then [showConfetti] is set and one timer is set that clears it
    5000 ms later (it is cleared once 5000 ms have passed, and, when no
    earlier timer is pending, not before); otherwise neither the view state
    nor the timers change.  An update that was rejected celebrates
    nothing. *)
Theorem handleUpdateInvestorStep_celebrates_final_stage (u : User) (investorId : jsstring)
    (newStep : number) (w : World) :
  let w' := exec (handleUpdateInvestorStep (Some u) investorId newStep (Resolved ())) w in
  lastStep = Num (Z.of_nat (length steps) - 1) /\ length steps = 7%nat
  /\ (newStep = Num 6 ->
        showConfetti (state w') = true
        /\ timers w' = timers w ++ [mkTimer HideConfetti (now w + 5000)]
        /\ run_callback HideConfetti (state w') = with_showConfetti false (state w')
        /\ showConfetti (state (elapse 5000 w')) = false
        /\ (timers w = [] ->
            forall dt : N, (dt < 5000)%N -> showConfetti (state (elapse dt w')) = true))
  /\ (newStep <> Num 6 -> state w' = state w /\ timers w' = timers w)
  /\ (showConfetti (state w) = false ->
      (showConfetti (state w') = true <-> newStep = Num 6))
  /\ (forall reason : any,
        showConfetti
          (state (exec (handleUpdateInvestorStep (Some u) investorId newStep
                          (Rejected reason)) w))
        = showConfetti (state w)
        /\ timers (exec (handleUpdateInvestorStep (Some u) investorId newStep
                           (Rejected reason)) w)
           = timers w).
Proof.
  intros w'. subst w'.
  assert (Hfailed : forall reason : any,
             showConfetti
               (state (exec (handleUpdateInvestorStep (Some u) investorId newStep
                               (Rejected reason)) w))
             = showConfetti (state w)
             /\ timers (exec (handleUpdateInvestorStep (Some u) investorId newStep
                                (Rejected reason)) w)
                = timers w).
  { intros reason. split; reflexivity. }
  rewrite handleUpdateInvestorStep_resolved, lastStep_is_6.
  split; [reflexivity |]. split; [reflexivity |]. cbv zeta.
  destruct (num_eq newStep (Num 6)) eqn:Hlast.
  - apply num_eq_6 in Hlast. subst newStep.
    split; [intros _ | split; [congruence | split; [intros _; cbn; tauto | exact Hfailed]]].
    split; [reflexivity |]. split; [reflexivity |]. split; [reflexivity |]. split.
    + unfold elapse. cbn [state timers now].
      rewrite List.filter_app, fold_left_app. cbn [List.filter due].
      destruct (N.leb_spec (now w + 5000) (now w + 5000)) as [_ | Hlt]; [| lia].
      reflexivity.
    + intros Hnone dt Hdt. rewrite Hnone. unfold elapse. cbn.
      destruct (N.leb_spec (now w + 5000) (now w + dt)) as [Hle | _]; [lia |].
      reflexivity.
  - assert (Hne : newStep <> Num 6).
    { intros Heq. apply num_eq_6 in Heq. congruence. }
    split; [intros Heq; contradiction |]. split; [intros _; split; reflexivity |].
    split; [| exact Hfailed].
    intros Hoff. cbn. rewrite Hoff. split; [discriminate | contradiction].
Qed.

Lemma handleUpdateInvestorStep_celebrates_final_stage_witness :
  showConfetti (state (exec (handleUpdateInvestorStep (Some sampleUser) (lit "i4") (Num 6)
                              (Resolved ())) initialWorld)) = true
  /\ showConfetti (state (elapse 4999
                     (exec (handleUpdateInvestorStep (Some sampleUser) (lit "i4") (Num 6)
                              (Resolved ())) initialWorld))) = true
  /\ showConfetti (state (elapse 5000
                     (exec (handleUpdateInvestorStep (Some sampleUser) (lit "i4") (Num 6)
                              (Resolved ())) initialWorld))) = false.
Proof.
  destruct (handleUpdateInvestorStep_celebrates_final_stage sampleUser (lit "i4") (Num 6)
              initialWorld) as (_ & _ & Hsix & _).
  destruct (Hsix eq_refl) as (Hon & _ & _ & Hoff & Hkeep).
  split; [exact Hon |]. split; [| exact Hoff].
  apply Hkeep; [reflexivity | reflexivity].
Defined.

(** ** Committing an edit *)

(** C7.  Confirming an edit sends one update that carries the whole draft
    without its id, addressed to the draft's id; once that update has
    succeeded, and only then, the handler calls portfolio analysis,
    likelihood prediction and next-action suggestion, in this order and each
    on the record just saved, and stores their answers in the three derived
    fields.  When the update is rejected, no analysis call is made and the
    derived fields keep their values. *)
Theorem handleEditInvestor_commits_then_refreshes (u : User) (updatedInvestor : Investor)
    (portfolio : list jsstring) (likelihood : number) (actions : list jsstring)
    (reason : any) (analysed : outcome (list jsstring)) (predicted : outcome number)
    (suggested : outcome (list jsstring)) (w : World) :
  let commit :=
    UpdateDoc (investorRef u (id updatedInvestor)) (SetFields (fields updatedInvestor)) in
  let saved :=
    exec (handleEditInvestor (Some u) updatedInvestor (Resolved ()) (Resolved portfolio)
            (Resolved likelihood) (Resolved actions)) w in
  let failed :=
    exec (handleEditInvestor (Some u) updatedInvestor (Rejected reason) analysed
            predicted suggested) w in
  requests saved
  = requests w ++ [ commit;
                    AnalyzeInvestorPortfolio updatedInvestor;
                    PredictInvestmentLikelihood updatedInvestor;
                    SuggestNextActions updatedInvestor (currentStep updatedInvestor) ]
  /\ portfolioAnalysis (state saved) = portfolio
  /\ investmentLikelihood (state saved) = Some likelihood
  /\ suggestedActions (state saved) = actions
  /\ editingInvestor (state saved) = None
  /\ investors (state saved)
     = map (fun investor : Investor =>
              if str_eq (id investor) (id updatedInvestor) then updatedInvestor else investor)
           (investors (state w))
  /\ requests failed = requests w ++ [commit]
  /\ portfolioAnalysis (state failed) = portfolioAnalysis (state w)
  /\ investmentLikelihood (state failed) = investmentLikelihood (state w)
  /\ suggestedActions (state failed) = suggestedActions (state w).
Proof.
  intros commit saved failed. subst commit saved failed.
  unfold handleEditInvestor. run_handler.
  rewrite <- !app_assoc. repeat split.
Qed.

Example handleEditInvestor_sample :
  map isWrite
    (requests (exec (handleEditInvestor (Some sampleUser) carol (Resolved ())
                       (Resolved [lit "fintech"]) (Resolved (Num 70))
                       (Resolved [lit "Send the deck"])) initialWorld))
  = [true; false; false; false].
Proof. reflexivity. Qed.

(** ** Submitting a comment *)

Lemma trimStart_decompose (s : jsstring) :
  exists pre : jsstring, s = pre ++ trimStart s /\ forallb isWhiteSpace pre = true.
Proof.
  induction s as [|c s (pre & Hs & Hpre)]; simpl.
  - now exists [].
  - destruct (isWhiteSpace c) eqn:Hc.
    + exists (c :: pre). simpl. rewrite Hc, Hpre. now rewrite Hs at 1.
    + now exists [].
Qed.

Lemma trimStart_whitespace (s : jsstring) :
  forallb isWhiteSpace (trimStart s) = forallb isWhiteSpace s.
Proof.
  induction s as [|c s IH]; simpl; [reflexivity |].
  destruct (isWhiteSpace c) eqn:Hc; simpl; [exact IH | now rewrite Hc].
Qed.

Lemma trimStart_nil (s : jsstring) :
  trimStart s = [] <-> forallb isWhiteSpace s = true.
Proof.
  induction s as [|c s IH]; simpl; [tauto |].
  destruct (isWhiteSpace c); simpl; [exact IH | split; discriminate].
Qed.

Lemma forallb_rev {A : Type} (p : A -> bool) (l : list A) :
  forallb p (rev l) = forallb p l.
Proof.
  induction l as [|x l IH]; simpl; [reflexivity |].
  rewrite forallb_app, IH. simpl. rewrite andb_true_r. apply andb_comm.
Qed.

Lemma trimEnd_decompose (s : jsstring) :
  exists post : jsstring, s = trimEnd s ++ post /\ forallb isWhiteSpace post = true.
Proof.
  unfold trimEnd. destruct (trimStart_decompose (rev s)) as (pre & Hs & Hpre).
  exists (rev pre). split; [| now rewrite forallb_rev].
  rewrite <- rev_app_distr, <- Hs. symmetry. apply rev_involutive.
Qed.

Lemma trim_nil (s : jsstring) : trim s = [] <-> forallb isWhiteSpace s = true.
Proof.
  unfold trim, trimEnd. rewrite <- trimStart_whitespace, <- forallb_rev, <- trimStart_nil.
  split.
  - intros H. apply (f_equal (@rev N)) in H. now rewrite rev_involutive in H.
  - now intros ->.
Qed.

Lemma trim_decompose (s : jsstring) :
  exists pre post : jsstring,
    s = pre ++ trim s ++ post
    /\ forallb isWhiteSpace pre = true /\ forallb isWhiteSpace post = true.
Proof.
  destruct (trimStart_decompose s) as (pre & Hs & Hpre).
  destruct (trimEnd_decompose (trimStart s)) as (post & Ht & Hpost).
  exists pre, post. unfold trim. now rewrite <- Ht.
Qed.

Example trim_sample : trim ([32; 9] ++ lit "a b" ++ [160; 10])%N = lit "a b".
Proof. reflexivity. Qed.

Example trim_blank : trim [32; 8195; 10; 65279]%N = [].
Proof. reflexivity. Qed.

(** C5.  When the comment input is empty or holds only whitespace,
    submitting does nothing at all: [handleAddComment] is not run, no call
    is made, and the card and the view state stay as they are.  When it has
    other content, submitting runs [handleAddComment] on the trimmed text
    (the input without the whitespace at its two ends, which is not empty)
    and clears the input; for a signed-in user that is one update, which
    adds a comment whose text is the trimmed text. *)
Theorem handleCommentSubmit_writes_trimmed_text
    (toString toISOString : N -> jsstring) (u : User) (investor : Investor)
    (updated : outcome unit) (card : CardState) (w : World) :
  (forallb isWhiteSpace (newComment card) = true ->
     forall user : option User,
       handleCommentSubmit toString toISOString user investor updated card w
       = (Resolved card, w))
  /\ (forallb isWhiteSpace (newComment card) = false ->
      trim (newComment card) <> []
      /\ (exists pre post : jsstring,
            newComment card = pre ++ trim (newComment card) ++ post
            /\ forallb isWhiteSpace pre = true /\ forallb isWhiteSpace post = true)
      /\ (forall user : option User,
            handleCommentSubmit toString toISOString user investor updated card w
            = (handleAddComment toString toISOString user (id investor)
                 (trim (newComment card)) updated;;
               mret (setNewComment [] card)) w)
      /\ issued (handleCommentSubmit toString toISOString (Some u) investor updated card) w
         = [UpdateDoc (investorRef u (id investor))
              (UnionComment {| comment_id := toString (now w);
                               text := trim (newComment card);
                               date := toISOString (now w) |})]
      /\ fst (handleCommentSubmit toString toISOString (Some u) investor updated card w)
         = Resolved (setNewComment [] card)).
Proof.
  unfold handleCommentSubmit. split.
  - intros Hws%trim_nil user. rewrite Hws. reflexivity.
  - intros Hcontent.
    assert (Hne : trim (newComment card) <> []).
    { intros Hnil%trim_nil. congruence. }
    split; [exact Hne |]. split; [apply trim_decompose |].
    destruct (trim (newComment card)) as [|c t] eqn:Htrim; [contradiction |].
    cbn [str_truthy]. split; [reflexivity |].
    unfold handleAddComment. split.
    + apply issued_app. destruct updated as [[]|e]; run_handler; reflexivity.
    + destruct updated as [[]|e]; run_handler; reflexivity.
Qed.

Lemma handleCommentSubmit_writes_trimmed_text_witness :
  fst (handleCommentSubmit (fun _ => lit "1") (fun _ => lit "2026") (Some sampleUser) alice
         (Resolved ()) (mkCard [32; 9; 8195]%N None []) initialWorld)
  = Resolved (mkCard [32; 9; 8195]%N None [])
  /\ issued (handleCommentSubmit (fun _ => lit "1") (fun _ => lit "2026") (Some sampleUser)
               alice (Resolved ()) (mkCard ([32] ++ lit "hi there" ++ [10])%N None []))
            initialWorld
     = [UpdateDoc (investorRef sampleUser (lit "i1"))
          (UnionComment (mkComment (lit "1") (lit "hi there") (lit "2026")))].
Proof.
  split.
  - destruct (handleCommentSubmit_writes_trimmed_text (fun _ => lit "1") (fun _ => lit "2026")
                sampleUser alice (Resolved ()) (mkCard [32; 9; 8195]%N None []) initialWorld)
      as [Hblank _].
    rewrite (Hblank eq_refl (Some sampleUser)). reflexivity.
  - destruct (handleCommentSubmit_writes_trimmed_text (fun _ => lit "1") (fun _ => lit "2026")
                sampleUser alice (Resolved ())
                (mkCard ([32] ++ lit "hi there" ++ [10])%N None []) initialWorld)
      as [_ Hcontent].
    destruct (Hcontent eq_refl) as (_ & _ & _ & Hissued & _).
    rewrite Hissued. reflexivity.
Defined.

(** ** Failed writes *)

(** C1, as stated, fails: a failed "add investor" and a failed "add comment",
    with the same cause and from the same state, leave different strings in
    the error state. *)
Lemma write_failures_show_different_messages :
  error (state (exec (handleAddInvestor (Some sampleUser) (Rejected AUndefined))
                  initialWorld))
  = Some (lit "Failed to add investor. Please try again.")
  /\ error (state (exec (handleAddComment (fun _ => lit "1") (fun _ => lit "2026")
                           (Some sampleUser) (lit "i1") (lit "hello") (Rejected AUndefined))
                     initialWorld))
     = Some (lit "Failed to add comment. Please try again.")
  /\ error (state (exec (handleAddInvestor (Some sampleUser) (Rejected AUndefined))
                     initialWorld))
     <> error (state (exec (handleAddComment (fun _ => lit "1") (fun _ => lit "2026")
                              (Some sampleUser) (lit "i1") (lit "hello")
                              (Rejected AUndefined))
                        initialWorld)).
Proof.
  split; [reflexivity |]. split; [reflexivity |]. vm_compute. discriminate.
Qed.

(** C1, amended.  Whatever the cause, a failure caught by the handler of a
    write operation sets the error state to the fixed message of that
    operation and logs the cause; the message depends on the operation only,
    and the eight operations have eight different messages. *)
Theorem failed_write_reports_its_operation
    (toString toISOString : N -> jsstring) (u : User) (reason : any) (w : World) :
  reported AddInvestor reason w (exec (handleAddInvestor (Some u) (Rejected reason)) w)
  /\ (forall (investorId : jsstring) (newStep : number),
        reported UpdateInvestorStep reason w
          (exec (handleUpdateInvestorStep (Some u) investorId newStep (Rejected reason)) w))
  /\ (forall investorId newStatus : jsstring,
        reported UpdateInvestorStatus reason w
          (exec (handleUpdateInvestorStatus (Some u) investorId newStatus (Rejected reason)) w))
  /\ (forall investorId : jsstring,
        reported DeleteInvestor reason w
          (exec (handleDeleteInvestor (Some u) investorId (Rejected reason)) w))
  /\ (forall (updatedInvestor : Investor) (analysed : outcome (list jsstring))
             (predicted : outcome number) (suggested : outcome (list jsstring)),
        reported EditInvestor reason w
          (exec (handleEditInvestor (Some u) updatedInvestor (Rejected reason)
                   analysed predicted suggested) w))
  /\ (forall investorId commentText : jsstring,
        reported AddComment reason w
          (exec (handleAddComment toString toISOString (Some u) investorId commentText
                   (Rejected reason)) w))
  /\ (forall (investorId commentId newText : jsstring) (investorDoc : DocumentSnapshot)
             (updated : outcome unit),
        reported UpdateComment reason w
          (exec (handleUpdateComment (Some u) investorId commentId newText
                   (Rejected reason) updated) w)
        /\ reported UpdateComment reason w
             (exec (handleUpdateComment (Some u) investorId commentId newText
                      (Resolved investorDoc) (Rejected reason)) w))
  /\ (forall (investorId commentId : jsstring) (investorDoc : DocumentSnapshot)
             (updated : outcome unit),
        reported DeleteComment reason w
          (exec (handleDeleteComment (Some u) investorId commentId
                   (Rejected reason) updated) w)
        /\ reported DeleteComment reason w
             (exec (handleDeleteComment (Some u) investorId commentId
                      (Resolved investorDoc) (Rejected reason)) w))
  /\ NoDup (map failureMessage writeOperations).
Proof.
  unfold reported.
  repeat match goal with
         | |- _ /\ _ => split
         | |- forall _, _ => intro
         end;
    try reflexivity.
  apply (bool_decide_unpack _). vm_compute. exact I.
Qed.

(** * Further properties of the handlers *)

(** ** Deleting an investor *)

Lemma filter_other_ids (investorId : jsstring) (l : list Investor) :
  List.filter (fun investor : Investor => negb (str_eq (id investor) investorId)) l
  = List.filter (fun investor : Investor => bool_decide (id investor <> investorId)) l.
Proof.
  apply filter_ext. intros investor. unfold str_eq.
  destruct (decide (id investor = investorId)) as [Heq | Hne].
  - rewrite bool_decide_eq_true_2 by exact Heq.
    symmetry. apply bool_decide_eq_false_2. tauto.
  - rewrite bool_decide_eq_false_2 by exact Hne.
    symmetry. apply bool_decide_eq_true_2. exact Hne.
Qed.

(** Once the store has deleted the document, the local list loses exactly
    the records with that id, the others keeping their order; it is the only
    call made.  When the store rejects the deletion the local list is left
    as it was. *)
Theorem handleDeleteInvestor_removes_locally_after_store (u : User) (investorId : jsstring)
    (reason : any) (w : World) :
  let deleted := exec (handleDeleteInvestor (Some u) investorId (Resolved ())) w in
  let failed := exec (handleDeleteInvestor (Some u) investorId (Rejected reason)) w in
  requests deleted = requests w ++ [DeleteDoc (investorRef u investorId)]
  /\ investors (state deleted)
     = List.filter (fun investor : Investor => bool_decide (id investor <> investorId))
         (investors (state w))
  /\ (forall investor : Investor,
        In investor (investors (state deleted))
        <-> In investor (investors (state w)) /\ id investor <> investorId)
  /\ error (state deleted) = error (state w)
  /\ requests failed = requests w ++ [DeleteDoc (investorRef u investorId)]
  /\ investors (state failed) = investors (state w).
Proof.
  intros deleted failed. subst deleted failed.
  unfold handleDeleteInvestor. destruct w as [s rs cs ts t]. run_handler.
  cbn [investors with_investors error]. rewrite filter_other_ids.
  split; [reflexivity |]. split; [reflexivity |].
  split; [| repeat split].
  intros investor. rewrite filter_In, bool_decide_eq_true. reflexivity.
Qed.

Example handleDeleteInvestor_sample :
  investors
    (state (exec (handleDeleteInvestor (Some sampleUser) (lit "i2") (Resolved ()))
              (mkWorld (with_investors (fun _ => [alice; bob; carol; bob]) initialState)
                 [] [] [] 0%N)))
  = [alice; carol].
Proof. reflexivity. Qed.

(** ** The local list while editing *)

Lemma replace_by_id_ids (updatedInvestor : Investor) (l : list Investor) :
  map id (map (fun investor : Investor =>
                 if str_eq (id investor) (id updatedInvestor)
                 then updatedInvestor else investor) l)
  = map id l.
Proof.
  induction l as [|investor l IH]; simpl; [reflexivity |]. rewrite IH. f_equal.
  destruct (str_eq (id investor) (id updatedInvestor)) eqn:Heq; [| reflexivity].
  symmetry. now apply str_eq_true.
Qed.

(** Whatever the analysis service answers afterwards, a committed edit
    changes no id in the local list and moves no record: the ids are the
    same list as before; every record with the draft's id is now the draft,
    and every other record is untouched.  When no listed record has the
    draft's id, the list is unchanged. *)
Theorem handleEditInvestor_keeps_ids_and_order (u : User) (updatedInvestor : Investor)
    (analysed : outcome (list jsstring)) (predicted : outcome number)
    (suggested : outcome (list jsstring)) (w : World) :
  let saved :=
    exec (handleEditInvestor (Some u) updatedInvestor (Resolved ()) analysed predicted
            suggested) w in
  map id (investors (state saved)) = map id (investors (state w))
  /\ Forall2 (fun before after : Investor =>
                after = if bool_decide (id before = id updatedInvestor)
                        then updatedInvestor else before)
       (investors (state w)) (investors (state saved))
  /\ (Forall (fun investor : Investor => id investor <> id updatedInvestor)
        (investors (state w)) ->
      investors (state saved) = investors (state w)).
Proof.
  intros saved.
  assert (Hlist : investors (state saved)
                  = map (fun investor : Investor =>
                           if str_eq (id investor) (id updatedInvestor)
                           then updatedInvestor else investor)
                        (investors (state w))).
  { subst saved. unfold handleEditInvestor.
    destruct analysed as [p|e1]; [destruct predicted as [l|e2];
                                  [destruct suggested as [a|e3] |] |];
      run_handler; reflexivity. }
  rewrite Hlist. clear Hlist saved.
  split; [apply replace_by_id_ids |].
  induction (investors (state w)) as [|investor l [IH1 IH2]]; simpl.
  - split; [constructor | reflexivity].
  - split; [constructor; [reflexivity | exact IH1] |].
    intros Hall. apply Forall_cons in Hall as [Hne Hall].
    rewrite (IH2 Hall). apply str_eq_false in Hne. now rewrite Hne.
Qed.

Lemma handleEditInvestor_keeps_ids_and_order_witness :
  investors
    (state (exec (handleEditInvestor (Some sampleUser)
                    (sampleInvestor "i9" "Zed" "active" (Num 1) None) (Resolved ())
                    (Rejected ANull) (Resolved (Num 1)) (Resolved []))
              (mkWorld (with_investors (fun _ => [alice; bob]) initialState) [] [] [] 0%N)))
  = [alice; bob].
Proof.
  destruct (handleEditInvestor_keeps_ids_and_order sampleUser
              (sampleInvestor "i9" "Zed" "active" (Num 1) None)
              (Rejected ANull) (Resolved (Num 1)) (Resolved [])
              (mkWorld (with_investors (fun _ => [alice; bob]) initialState) [] [] [] 0%N))
    as (_ & _ & Hsame).
  apply Hsame. repeat constructor; discriminate.
Defined.

(** ** An analysis call that fails after the commit *)

(** The three analysis calls sit in the same [try] block as the update.
    When the update succeeded and an analysis call is rejected, the edit
    stays committed (the update was sent, the local list holds the draft,
    the dialog is closed), the calls after the rejected one are not made,
    the fields refreshed before it keep their new values, and the error
    state shows the message of a failed update. *)
Theorem handleEditInvestor_analysis_failure_reads_as_failed_update (u : User)
    (updatedInvestor : Investor) (reason : any) (portfolio : list jsstring)
    (likelihood : number) (analysed : outcome (list jsstring)) (predicted : outcome number)
    (suggested : outcome (list jsstring)) (w : World) :
  let commit :=
    UpdateDoc (investorRef u (id updatedInvestor)) (SetFields (fields updatedInvestor)) in
  let first :=
    exec (handleEditInvestor (Some u) updatedInvestor (Resolved ()) (Rejected reason)
            predicted suggested) w in
  let second :=
    exec (handleEditInvestor (Some u) updatedInvestor (Resolved ()) (Resolved portfolio)
            (Rejected reason) suggested) w in
  let third :=
    exec (handleEditInvestor (Some u) updatedInvestor (Resolved ()) (Resolved portfolio)
            (Resolved likelihood) (Rejected reason)) w in
  (requests first = requests w ++ [commit; AnalyzeInvestorPortfolio updatedInvestor]
   /\ portfolioAnalysis (state first) = portfolioAnalysis (state w)
   /\ investmentLikelihood (state first) = investmentLikelihood (state w)
   /\ suggestedActions (state first) = suggestedActions (state w))
  /\ (requests second
      = requests w ++ [commit; AnalyzeInvestorPortfolio updatedInvestor;
                       PredictInvestmentLikelihood updatedInvestor]
      /\ portfolioAnalysis (state second) = portfolio
      /\ investmentLikelihood (state second) = investmentLikelihood (state w)
      /\ suggestedActions (state second) = suggestedActions (state w))
  /\ (requests third
      = requests w ++ [commit; AnalyzeInvestorPortfolio updatedInvestor;
                       PredictInvestmentLikelihood updatedInvestor;
                       SuggestNextActions updatedInvestor (currentStep updatedInvestor)]
      /\ portfolioAnalysis (state third) = portfolio
      /\ investmentLikelihood (state third) = Some likelihood
      /\ suggestedActions (state third) = suggestedActions (state w))
  /\ Forall (fun failed : World =>
               error (state failed) = Some (lit "Failed to update investor. Please try again.")
               /\ console failed = console w ++ [(lit "Error updating investor:", reason)]
               /\ editingInvestor (state failed) = None
               /\ investors (state failed)
                  = map (fun investor : Investor =>
                           if str_eq (id investor) (id updatedInvestor)
                           then updatedInvestor else investor)
                        (investors (state w)))
       [first; second; third].
Proof.
  intros commit first second third. subst commit first second third.
  unfold handleEditInvestor. destruct w as [s rs cs ts t]. run_handler.
  rewrite <- !app_assoc. cbn [app].
  repeat match goal with
         | |- _ /\ _ => split
         | |- Forall _ _ => constructor
         end; reflexivity.
Qed.

(** ** Adding an investor *)

(** The add handler sends the draft as it stands, once.  Afterwards the
    loading flag is off whatever the store answered.  On success the form is
    reset to the empty draft, so the Add button is disabled again, and the
    error state is untouched; on failure the draft is kept for another try.
    In neither case is the local list changed: the new record only arrives
    through the subscription. *)
Theorem handleAddInvestor_resets_form_only_on_success (u : User) (reason : any) (w : World) :
  let added := exec (handleAddInvestor (Some u) (Resolved ())) w in
  let failed := exec (handleAddInvestor (Some u) (Rejected reason)) w in
  (requests added = requests w ++ [AddDoc (uid u) (newInvestor (state w))]
   /\ isLoading (state added) = false
   /\ newInvestor (state added) = emptyInvestor
   /\ addInvestor_disabled (state added) = true
   /\ error (state added) = error (state w)
   /\ investors (state added) = investors (state w))
  /\ (requests failed = requests w ++ [AddDoc (uid u) (newInvestor (state w))]
      /\ isLoading (state failed) = false
      /\ newInvestor (state failed) = newInvestor (state w)
      /\ addInvestor_disabled (state failed)
         = addInvestor_disabled (with_isLoading false (state w))
      /\ investors (state failed) = investors (state w)).
Proof.
  intros added failed. subst added failed.
  unfold handleAddInvestor. destruct w as [s rs cs ts t]. run_handler.
  repeat split.
Qed.

(** ** Updating and deleting comments *)

Lemma rewrite_text_spec (commentId newText : jsstring) (l : list Comment) :
  map comment_id
    (map (fun comment : Comment =>
            if str_eq (comment_id comment) commentId
            then mkComment (comment_id comment) newText (date comment)
            else comment) l)
  = map comment_id l
  /\ map date
       (map (fun comment : Comment =>
               if str_eq (comment_id comment) commentId
               then mkComment (comment_id comment) newText (date comment)
               else comment) l)
     = map date l
  /\ Forall2 (fun before after : Comment =>
                text after = if bool_decide (comment_id before = commentId)
                             then newText else text before)
       l (map (fun comment : Comment =>
                 if str_eq (comment_id comment) commentId
                 then mkComment (comment_id comment) newText (date comment)
                 else comment) l)
  /\ (Forall (fun comment : Comment => comment_id comment <> commentId) l ->
      map (fun comment : Comment =>
             if str_eq (comment_id comment) commentId
             then mkComment (comment_id comment) newText (date comment)
             else comment) l
      = l).
Proof.
  induction l as [|c l (IH1 & IH2 & IH3 & IH4)].
  - repeat split; constructor.
  - cbn [map]. rewrite IH1, IH2.
    destruct (str_eq (comment_id c) commentId) eqn:Hid.
    + apply str_eq_true in Hid. cbn [comment_id date].
      split; [reflexivity |]. split; [reflexivity |].
      split; [constructor; [| exact IH3] |].
      * rewrite bool_decide_eq_true_2 by exact Hid. reflexivity.
      * intros Hall. apply Forall_cons in Hall as [Hne _]. contradiction.
    + apply str_eq_false in Hid.
      split; [reflexivity |]. split; [reflexivity |].
      split; [constructor; [| exact IH3] |].
      * rewrite bool_decide_eq_false_2 by exact Hid. reflexivity.
      * intros Hall. apply Forall_cons in Hall as [_ Hall]. now rewrite IH4.
Qed.

(** Editing a comment reads the document and writes the whole list back:
    the list written has the ids and the dates of the list read, in the same
    order; a comment has the new text exactly when its id is the edited one
    and keeps its text otherwise.  When no comment has that id the list is
    written back unchanged, and a document without data or without comments
    gets the empty list.  When the read is rejected nothing is written. *)
Theorem handleUpdateComment_rewrites_matching_text (u : User)
    (investorId commentId newText : jsstring) (investorDoc : DocumentSnapshot)
    (updated : outcome unit) (reason : any) (w : World) :
  exists updatedComments : list Comment,
    issued (handleUpdateComment (Some u) investorId commentId newText
              (Resolved investorDoc) updated) w
    = [GetDoc (investorRef u investorId);
       UpdateDoc (investorRef u investorId) (SetComments updatedComments)]
    /\ map comment_id updatedComments = map comment_id (currentComments investorDoc)
    /\ map date updatedComments = map date (currentComments investorDoc)
    /\ Forall2 (fun before after : Comment =>
                  text after = if bool_decide (comment_id before = commentId)
                               then newText else text before)
         (currentComments investorDoc) updatedComments
    /\ (Forall (fun comment : Comment => comment_id comment <> commentId)
          (currentComments investorDoc) ->
        updatedComments = currentComments investorDoc)
    /\ (snapshot_comments investorDoc = None -> updatedComments = [])
    /\ issued (handleUpdateComment (Some u) investorId commentId newText
                 (Rejected reason) updated) w
       = [GetDoc (investorRef u investorId)].
Proof.
  exists (map (fun comment : Comment =>
                 if str_eq (comment_id comment) commentId
                 then mkComment (comment_id comment) newText (date comment)
                 else comment)
              (currentComments investorDoc)).
  destruct (rewrite_text_spec commentId newText (currentComments investorDoc))
    as (H1 & H2 & H3 & H4).
  split.
  { apply issued_app. unfold handleUpdateComment.
    destruct updated as [[]|e]; run_handler; rewrite <- app_assoc; reflexivity. }
  split; [exact H1 |]. split; [exact H2 |]. split; [exact H3 |]. split; [exact H4 |].
  split.
  - unfold currentComments. now intros ->.
  - apply issued_app. unfold handleUpdateComment. run_handler. reflexivity.
Qed.

(** Deleting a comment reads the document and writes back the comments
    whose id is not the deleted one, in their order: every comment with that
    id goes, every other stays.  A document without data or without
    comments gets the empty list; when the read is rejected nothing is
    written. *)
Theorem handleDeleteComment_drops_matching_comments (u : User)
    (investorId commentId : jsstring) (investorDoc : DocumentSnapshot)
    (updated : outcome unit) (reason : any) (w : World) :
  issued (handleDeleteComment (Some u) investorId commentId (Resolved investorDoc) updated) w
  = [GetDoc (investorRef u investorId);
     UpdateDoc (investorRef u investorId)
       (SetComments
          (List.filter (fun comment : Comment => bool_decide (comment_id comment <> commentId))
             (currentComments investorDoc)))]
  /\ (forall comment : Comment,
        In comment
          (List.filter (fun comment : Comment => bool_decide (comment_id comment <> commentId))
             (currentComments investorDoc))
        <-> In comment (currentComments investorDoc) /\ comment_id comment <> commentId)
  /\ (snapshot_comments investorDoc = None -> currentComments investorDoc = [])
  /\ issued (handleDeleteComment (Some u) investorId commentId (Rejected reason) updated) w
     = [GetDoc (investorRef u investorId)].
Proof.
  assert (Hfilter :
    List.filter (fun comment : Comment => negb (str_eq (comment_id comment) commentId))
      (currentComments investorDoc)
    = List.filter (fun comment : Comment => bool_decide (comment_id comment <> commentId))
        (currentComments investorDoc)).
  { apply filter_ext. intros comment. unfold str_eq.
    destruct (decide (comment_id comment = commentId)) as [Heq | Hne].
    - rewrite bool_decide_eq_true_2 by exact Heq.
      symmetry. apply bool_decide_eq_false_2. tauto.
    - rewrite bool_decide_eq_false_2 by exact Hne.
      symmetry. apply bool_decide_eq_true_2. exact Hne. }
  rewrite <- Hfilter. split.
  { apply issued_app. unfold handleDeleteComment.
    destruct updated as [[]|e]; run_handler; rewrite <- app_assoc; reflexivity. }
  split.
  { intros comment. rewrite Hfilter, filter_In, bool_decide_eq_true. reflexivity. }
  split.
  - unfold currentComments. now intros ->.
  - apply issued_app. unfold handleDeleteComment. run_handler. reflexivity.
Qed.

Example handleDeleteComment_sample :
  issued (handleDeleteComment (Some sampleUser) (lit "i1") (lit "7")
            (Resolved (mkSnapshot (Some [ mkComment (lit "7") (lit "a") (lit "d1");
                                          mkComment (lit "8") (lit "b") (lit "d2");
                                          mkComment (lit "7") (lit "c") (lit "d3") ])))
            (Resolved ())) initialWorld
  = [GetDoc (investorRef sampleUser (lit "i1"));
     UpdateDoc (investorRef sampleUser (lit "i1"))
       (SetComments [mkComment (lit "8") (lit "b") (lit "d2")])].
Proof. reflexivity. Qed.

(** ** Saving an edited comment *)

(** Saving is skipped, with no call and the card left in edit mode, when no
    comment is being edited, when the edited id is empty, or when the text
    is blank.  Otherwise the comment is updated with the trimmed text and
    the card leaves edit mode with an empty edit field; the text of the
    add-comment input is not touched. *)
Theorem handleSaveEditedComment_saves_trimmed_text (u : User) (investor : Investor)
    (fetched : outcome DocumentSnapshot) (updated : outcome unit) (card : CardState)
    (w : World) :
  ((editingCommentId card = None \/ editingCommentId card = Some []
    \/ forallb isWhiteSpace (editingCommentText card) = true) ->
   forall user : option User,
     handleSaveEditedComment user investor fetched updated card w = (Resolved card, w))
  /\ (forall commentId : jsstring,
        editingCommentId card = Some commentId ->
        commentId <> [] ->
        forallb isWhiteSpace (editingCommentText card) = false ->
        (forall user : option User,
           handleSaveEditedComment user investor fetched updated card w
           = (handleUpdateComment user (id investor) commentId
                (trim (editingCommentText card)) fetched updated;;
              mret (mkCard (newComment card) None [])) w)
        /\ fst (handleSaveEditedComment (Some u) investor fetched updated card w)
           = Resolved (mkCard (newComment card) None [])
        /\ trim (editingCommentText card) <> []).
Proof.
  unfold handleSaveEditedComment. split.
  - intros Hskip user.
    destruct (editingCommentId card) as [commentId|]; [| reflexivity].
    destruct Hskip as [Hnone | [[= ->] | Hblank%trim_nil]];
      [discriminate | reflexivity |].
    rewrite Hblank. now rewrite andb_false_r.
  - intros commentId -> Hid Hcontent.
    assert (Hne : trim (editingCommentText card) <> []).
    { intros Hnil%trim_nil. congruence. }
    destruct commentId as [|c0 cs]; [contradiction |].
    destruct (trim (editingCommentText card)) as [|c t] eqn:Htrim; [contradiction |].
    cbn [str_truthy andb]. split; [reflexivity |]. split; [| discriminate].
    unfold handleUpdateComment.
    destruct fetched as [d|e]; [destruct updated as [[]|e] |]; run_handler; reflexivity.
Qed.

Lemma handleSaveEditedComment_saves_trimmed_text_witness :
  issued (handleSaveEditedComment (Some sampleUser) alice
            (Resolved (mkSnapshot (Some [mkComment (lit "7") (lit "old") (lit "d1")])))
            (Resolved ()) (mkCard (lit "draft") (Some (lit "7")) ([32] ++ lit "new" ++ [32])%N))
         initialWorld
  = [GetDoc (investorRef sampleUser (lit "i1"));
     UpdateDoc (investorRef sampleUser (lit "i1"))
       (SetComments [mkComment (lit "7") (lit "new") (lit "d1")])]
  /\ handleSaveEditedComment (Some sampleUser) alice
       (Resolved (mkSnapshot None)) (Resolved ())
       (mkCard (lit "draft") (Some (lit "7")) [32; 10]%N) initialWorld
     = (Resolved (mkCard (lit "draft") (Some (lit "7")) [32; 10]%N), initialWorld).
Proof.
  split.
  - destruct (handleSaveEditedComment_saves_trimmed_text sampleUser alice
                (Resolved (mkSnapshot (Some [mkComment (lit "7") (lit "old") (lit "d1")])))
                (Resolved ())
                (mkCard (lit "draft") (Some (lit "7")) ([32] ++ lit "new" ++ [32])%N)
                initialWorld) as [_ Hsave].
    destruct (Hsave (lit "7") eq_refl) as (Hrun & _ & _); [discriminate | reflexivity |].
    unfold issued, exec. rewrite (Hrun (Some sampleUser)). reflexivity.
  - destruct (handleSaveEditedComment_saves_trimmed_text sampleUser alice
                (Resolved (mkSnapshot None)) (Resolved ())
                (mkCard (lit "draft") (Some (lit "7")) [32; 10]%N) initialWorld)
      as [Hskip _].
    apply Hskip. right. right. reflexivity.
Defined.

(** ** The text that reaches the store *)

Lemma trimStart_head (s : jsstring) (c : N) (t : jsstring) :
  trimStart s = c :: t -> isWhiteSpace c = false.
Proof.
  induction s as [|x s IH]; simpl; [discriminate |].
  destruct (isWhiteSpace x) eqn:Hx; [exact IH |]. now intros [= <- _].
Qed.

Lemma trimStart_keeps_content (s : jsstring) (c : N) :
  isWhiteSpace c = false -> exists t : jsstring, trimStart (s ++ [c]) = t ++ [c].
Proof.
  intros Hc. induction s as [|x s [t IH]]; simpl.
  - rewrite Hc. now exists [].
  - destruct (isWhiteSpace x); [now exists t |]. now exists (x :: s).
Qed.

Lemma trimStart_idem (s : jsstring) : trimStart (trimStart s) = trimStart s.
Proof.
  destruct (trimStart s) as [|c t] eqn:Hs; [reflexivity |].
  simpl. now rewrite (trimStart_head s c t Hs).
Qed.

Lemma trim_ends (s : jsstring) :
  trim s <> [] ->
  exists (first last : N) (body tail : jsstring),
    trim s = first :: tail /\ trim s = body ++ [last]
    /\ isWhiteSpace first = false /\ isWhiteSpace last = false.
Proof.
  unfold trim, trimEnd. intros Hne.
  destruct (trimStart s) as [|c t] eqn:Hs; [now contradiction Hne |].
  pose proof (trimStart_head s c t Hs) as Hc.
  change (rev (c :: t)) with (rev t ++ [c]) in *.
  destruct (trimStart_keeps_content (rev t) c Hc) as [t' Ht'].
  destruct (trimStart (rev t ++ [c])) as [|l r] eqn:Hr.
  { now destruct t'. }
  pose proof (trimStart_head _ l r Hr) as Hl.
  exists c, l, (rev r), (rev t').
  assert (Hrev : rev (l :: r) = c :: rev t').
  { rewrite Ht', rev_app_distr. reflexivity. }
  rewrite Hrev. split; [reflexivity |]. split; [| split; assumption].
  rewrite <- Hrev. reflexivity.
Qed.

Lemma trim_idem (s : jsstring) : trim (trim s) = trim s.
Proof.
  destruct (trim s) as [|c t] eqn:Hs; [reflexivity |].
  assert (Hne : trim s <> []) by (rewrite Hs; discriminate).
  destruct (trim_ends s Hne) as (first & last & body & tail & H1 & H2 & Hf & Hl).
  rewrite Hs in H1, H2. injection H1 as <- <-.
  unfold trim, trimEnd. cbn [trimStart]. rewrite Hf.
  rewrite H2, rev_app_distr. cbn [rev app trimStart]. rewrite Hl.
  cbn [rev]. now rewrite rev_involutive.
Qed.

(** A comment added from the card is never stored blank or padded: the text
    of the comment sent to the store is not empty, its first and its last
    code unit are not whitespace, and trimming it again changes nothing. *)
Theorem handleCommentSubmit_text_has_no_outer_whitespace
    (toString toISOString : N -> jsstring) (u : User) (investor : Investor)
    (updated : outcome unit) (card : CardState) (w : World) (request : Request) :
  In request (issued (handleCommentSubmit toString toISOString (Some u) investor updated card) w) ->
  exists (comment : Comment) (first last : N) (body tail : jsstring),
    request = UpdateDoc (investorRef u (id investor)) (UnionComment comment)
    /\ text comment = first :: tail /\ text comment = body ++ [last]
    /\ isWhiteSpace first = false /\ isWhiteSpace last = false
    /\ trim (text comment) = text comment.
Proof.
  unfold handleCommentSubmit.
  destruct (trim (newComment card)) as [|c t] eqn:Htrim; cbn [str_truthy].
  - rewrite issued_mret. intros [].
  - assert (Hne : trim (newComment card) <> []) by (rewrite Htrim; discriminate).
    destruct (trim_ends _ Hne) as (first & last & body & tail & H1 & H2 & Hf & Hl).
    pose proof (trim_idem (newComment card)) as Hidem.
    rewrite Htrim in H1, H2, Hidem.
    assert (Hissued :
      issued (handleAddComment toString toISOString (Some u) (id investor) (c :: t) updated;;
              mret (setNewComment [] card)) w
      = [UpdateDoc (investorRef u (id investor))
           (UnionComment (mkComment (toString (now w)) (c :: t) (toISOString (now w))))]).
    { apply issued_app. unfold handleAddComment.
      destruct updated as [[]|e]; run_handler; reflexivity. }
    rewrite Hissued. intros [<- | []].
    exists (mkComment (toString (now w)) (c :: t) (toISOString (now w))),
      first, last, body, tail.
    cbn [text]. repeat split; assumption.
Qed.

Lemma handleCommentSubmit_text_has_no_outer_whitespace_witness :
  exists (comment : Comment) (first last : N) (body tail : jsstring),
    UpdateDoc (investorRef sampleUser (lit "i1"))
      (UnionComment (mkComment (lit "1") (lit "hi there") (lit "2026")))
    = UpdateDoc (investorRef sampleUser (id alice)) (UnionComment comment)
    /\ text comment = first :: tail /\ text comment = body ++ [last]
    /\ isWhiteSpace first = false /\ isWhiteSpace last = false
    /\ trim (text comment) = text comment.
Proof.
  apply (handleCommentSubmit_text_has_no_outer_whitespace
           (fun _ => lit "1") (fun _ => lit "2026") sampleUser alice (Resolved ())
           (mkCard ([32] ++ lit "hi there" ++ [10])%N None []) initialWorld).
  left. reflexivity.
Defined.

(** ** Toggling twice, toggling two cards *)

(** Toggling the same card twice brings every card back to the expansion it
    had (the map itself may now hold an explicit [false] where it held
    nothing), and toggles of two different cards can be done in either
    order. *)
Theorem toggleCardExpansion_twice_and_commute (a b : jsstring) (w : World) :
  (forall investorId : jsstring,
     expanded (expandedCards (state (exec (toggleCardExpansion a)
                                       (exec (toggleCardExpansion a) w)))) investorId
     = expanded (expandedCards (state w)) investorId)
  /\ (a <> b ->
      exec (toggleCardExpansion a) (exec (toggleCardExpansion b) w)
      = exec (toggleCardExpansion b) (exec (toggleCardExpansion a) w)).
Proof.
  destruct w as [s rs cs ts t]. unfold toggleCardExpansion. run_handler.
  cbn [expandedCards with_expandedCards investors newInvestor isLoading error
       editingInvestor deleteConfirmation showConfetti portfolioAnalysis
       investmentLikelihood suggestedActions].
  split.
  - intros investorId. unfold expanded.
    rewrite lookup_insert_eq. cbn [default].
    destruct (decide (a = investorId)) as [<- | Hne].
    + rewrite !lookup_insert_eq. cbn [default]. apply negb_involutive.
    + rewrite !lookup_insert_ne by exact Hne. reflexivity.
  - intros Hne. unfold with_expandedCards. cbn.
    rewrite !lookup_insert_ne by congruence.
    f_equal. f_equal. apply insert_insert_ne. congruence.
Qed.

Lemma toggleCardExpansion_twice_and_commute_witness :
  exec (toggleCardExpansion (lit "i1")) (exec (toggleCardExpansion (lit "i2")) initialWorld)
  = exec (toggleCardExpansion (lit "i2")) (exec (toggleCardExpansion (lit "i1")) initialWorld).
Proof.
  apply (toggleCardExpansion_twice_and_commute (lit "i1") (lit "i2") initialWorld).
  discriminate.
Defined.

(** ** What the subscription keeps of a document *)

(** The local list has one record per document of the snapshot, in the
    snapshot's order.  A record's id is the document's id unless the stored
    data has an [id] field of its own, which then wins; every stored field
    other than [id] and [currentStep] is copied as it is. *)
Theorem onSnapshot_handler_copies_documents (querySnapshot : list QueryDocumentSnapshot) :
  Forall2 (fun (doc : QueryDocumentSnapshot) (investor : object) =>
             investor !! lit "id"
             = Some (match doc_data doc !! lit "id" with
                     | Some stored => stored
                     | None => AString (doc_id doc)
                     end)
             /\ forall key : jsstring,
                  key <> lit "id" -> key <> lit "currentStep" ->
                  investor !! key = doc_data doc !! key)
    querySnapshot (onSnapshot_handler querySnapshot).
Proof.
  rewrite onSnapshot_handler_map.
  induction querySnapshot as [|doc l IH]; simpl; constructor; [| exact IH].
  unfold snapshotInvestor. split.
  - rewrite lookup_insert_ne by discriminate.
    rewrite lookup_union. rewrite lookup_singleton_eq.
    destruct (doc_data doc !! lit "id"); reflexivity.
  - intros key Hid Hstep.
    rewrite lookup_insert_ne by congruence.
    rewrite lookup_union, lookup_singleton_ne by congruence.
    destruct (doc_data doc !! key); reflexivity.
Qed.

Example onSnapshot_handler_stored_id_wins :
  map (fun o : object => prop o (lit "id"))
    (onSnapshot_handler
       [ mkDoc (lit "i1") {[ lit "name" := AString (lit "Alice") ]};
         mkDoc (lit "i2") {[ lit "id" := AString (lit "other") ]} ])
  = [AString (lit "i1"); AString (lit "other")].
Proof. vm_compute. reflexivity. Qed.

(** ** Sorting keeps the filtered records *)

(** Whatever the sort key and whatever the host's string comparison answers
    (even inconsistently), the list shown holds exactly the records that
    pass the status filter, each as often as in the local list: sorting
    never drops, repeats or adds a record. *)
Theorem sortedInvestors_shows_the_filtered_records
    (localeCompare : jsstring -> jsstring -> number)
    (sortBy filterStatus : jsstring) (investors : list Investor) :
  Permutation (filteredInvestors filterStatus investors)
    (sortedInvestors localeCompare sortBy filterStatus investors)
  /\ (length (sortedInvestors localeCompare sortBy filterStatus investors)
      <= length investors)%nat
  /\ (forall investor : Investor,
        In investor (sortedInvestors localeCompare sortBy filterStatus investors)
        <-> In investor investors
            /\ (filterStatus = lit "all" \/ status investor = filterStatus)).
Proof.
  assert (Hperm : Permutation (filteredInvestors filterStatus investors)
                    (sortedInvestors localeCompare sortBy filterStatus investors)).
  { unfold sortedInvestors. apply array_sort_Permutation. }
  split; [exact Hperm |]. split.
  - rewrite <- (Permutation_length Hperm). unfold filteredInvestors.
    apply List.filter_length_le.
  - intros investor. split.
    + intros Hin. apply (Permutation_in _ (Permutation_sym Hperm)) in Hin.
      unfold filteredInvestors in Hin. apply filter_In in Hin as [Hin Hkeep].
      split; [exact Hin |].
      destruct (str_eq filterStatus (lit "all")) eqn:Hall.
      * left. now apply str_eq_true.
      * right. now apply str_eq_true.
    + intros [Hin Hkeep]. apply (Permutation_in _ Hperm).
      unfold filteredInvestors. apply filter_In. split; [exact Hin |].
      destruct Hkeep as [-> | <-]; [reflexivity |].
      rewrite str_eq_refl. now destruct (str_eq (status investor) (lit "all")).
Qed.

Section KeyedSortStable.

Context {A : Type} (key : A -> Z) (comparefn : A -> A -> number).
Hypothesis comparefn_key : forall a b, comparefn a b = Num (key b - key a).

Lemma sort_insert_same_key (k : Z) (x : A) (l : list A) :
  List.filter (fun a => key a =? k) (sort_insert comparefn x l)
  = List.filter (fun a => key a =? k) (x :: l).
Proof.
  induction l as [|y l IH]; [reflexivity |].
  cbn [sort_insert]. rewrite comparefn_key. cbn [num_gt].
  destruct (Z.ltb_spec 0 (key y - key x)) as [Hlt | Hge]; [| reflexivity].
  cbn [List.filter] in *. rewrite IH.
  destruct (Z.eqb_spec (key x) k) as [Hx | Hx], (Z.eqb_spec (key y) k) as [Hy | Hy];
    try reflexivity.
  lia.
Qed.

Lemma array_sort_same_key (k : Z) (l : list A) :
  List.filter (fun a => key a =? k) (array_sort comparefn l)
  = List.filter (fun a => key a =? k) l.
Proof.
  induction l as [|x l IH]; [reflexivity |].
  cbn [array_sort]. rewrite sort_insert_same_key. cbn [List.filter]. now rewrite IH.
Qed.

End KeyedSortStable.

(** Sorting by amount is stable: the records ranked with the same amount
    (undefined, 0 and NaN all rank as 0) stay in the order the filtered list
    had them in. *)
Theorem sortedInvestors_by_amount_keeps_ties_in_order
    (localeCompare : jsstring -> jsstring -> number)
    (filterStatus : jsstring) (investors : list Investor) (amount : Z) :
  List.filter (fun investor : Investor => comparedAmount investor =? amount)
    (sortedInvestors localeCompare (lit "investmentAmount") filterStatus investors)
  = List.filter (fun investor : Investor => comparedAmount investor =? amount)
      (filteredInvestors filterStatus investors).
Proof.
  unfold sortedInvestors. apply array_sort_same_key. apply compareInvestors_by_amount.
Qed.

Example sortedInvestors_ties_sample :
  sortedInvestors codeUnitCompare (lit "investmentAmount") (lit "paused")
    [dave; alice; bob; carol] = [dave; bob]
  /\ sortedInvestors codeUnitCompare (lit "investmentAmount") (lit "paused")
       [bob; alice; dave; carol] = [bob; dave].
Proof. split; reflexivity. Qed.

(** ** A second celebration *)

(** The clearing timer is never cancelled.  When the last stage is written
    again [d] milliseconds after a first time (0 < d < 5000, no other timer
    pending), both timers are pending; the first one clears the second
    celebration only [5000 - d] milliseconds after it began, and the second
    timer is still pending then. *)
Theorem celebration_timer_is_never_cancelled (u : User) (investorId : jsstring) (d : N)
    (w : World) :
  timers w = [] ->
  (0 < d < 5000)%N ->
  let toLastStage := handleUpdateInvestorStep (Some u) investorId (Num 6) (Resolved ()) in
  let again := exec toLastStage (elapse d (exec toLastStage w)) in
  showConfetti (state again) = true
  /\ timers again = [ mkTimer HideConfetti (now w + 5000);
                      mkTimer HideConfetti (now w + d + 5000) ]
  /\ showConfetti (state (elapse (5000 - d) again)) = false
  /\ timers (elapse (5000 - d) again) = [mkTimer HideConfetti (now w + d + 5000)].
Proof.
  intros Hnone Hd toLastStage again. subst toLastStage again.
  destruct w as [s rs cs ts t]. cbn [timers] in Hnone. subst ts. cbn [now].
  set (sent := UpdateDoc (investorRef u investorId) (SetCurrentStep (Num 6))).
  assert (Hfirst :
    exec (handleUpdateInvestorStep (Some u) investorId (Num 6) (Resolved ()))
      (mkWorld s rs cs [] t)
    = mkWorld (with_showConfetti true s) (rs ++ [sent]) cs
        [mkTimer HideConfetti (t + 5000)] t).
  { rewrite handleUpdateInvestorStep_resolved. reflexivity. }
  rewrite Hfirst.
  assert (Hwait :
    elapse d (mkWorld (with_showConfetti true s) (rs ++ [sent]) cs
                [mkTimer HideConfetti (t + 5000)] t)
    = mkWorld (with_showConfetti true s) (rs ++ [sent]) cs
        [mkTimer HideConfetti (t + 5000)] (t + d)).
  { unfold elapse. cbn [state requests console timers now List.filter due].
    destruct (N.leb_spec (t + 5000) (t + d)) as [Hle | _]; [lia |]. reflexivity. }
  rewrite Hwait.
  assert (Hsecond :
    exec (handleUpdateInvestorStep (Some u) investorId (Num 6) (Resolved ()))
      (mkWorld (with_showConfetti true s) (rs ++ [sent]) cs
         [mkTimer HideConfetti (t + 5000)] (t + d))
    = mkWorld (with_showConfetti true (with_showConfetti true s))
        ((rs ++ [sent]) ++ [sent]) cs
        [mkTimer HideConfetti (t + 5000); mkTimer HideConfetti (t + d + 5000)] (t + d)).
  { rewrite handleUpdateInvestorStep_resolved. reflexivity. }
  rewrite Hsecond. cbn [state timers].
  split; [reflexivity |]. split; [reflexivity |].
  unfold elapse. cbn [state requests console timers now List.filter due].
  destruct (N.leb_spec (t + 5000) (t + d + (5000 - d))) as [_ | Hlt]; [| lia].
  destruct (N.leb_spec (t + d + 5000) (t + d + (5000 - d))) as [Hle | _]; [lia |].
  split; reflexivity.
Qed.

Lemma celebration_timer_is_never_cancelled_witness :
  showConfetti
    (state (elapse 1000
              (exec (handleUpdateInvestorStep (Some sampleUser) (lit "i4") (Num 6)
                       (Resolved ()))
                 (elapse 4000
                    (exec (handleUpdateInvestorStep (Some sampleUser) (lit "i4") (Num 6)
                             (Resolved ())) initialWorld)))))
  = false.
Proof.
  destruct (celebration_timer_is_never_cancelled sampleUser (lit "i4") 4000 initialWorld)
    as (_ & _ & Hoff & _); [reflexivity | lia |].
  exact Hoff.
Defined.

(** ** Confirming a deletion *)

(** Asking to delete a record only opens the dialog: no call is made and
    the local list is unchanged.  Confirming then sends the deletion of that
    record and closes the dialog whatever the store answers; with no record
    pending, confirming does nothing. *)
Theorem confirmDeletion_deletes_the_pending_record (u : User) (investor : Investor)
    (deleted : outcome unit) (w : World) :
  id investor <> [] ->
  let asked := exec (delete_onClick investor) w in
  let confirmed := exec (confirmDeletion_onClick (Some u) deleted) asked in
  deleteConfirmation (state asked) = Some (id investor)
  /\ requests asked = requests w
  /\ investors (state asked) = investors (state w)
  /\ requests confirmed = requests w ++ [DeleteDoc (investorRef u (id investor))]
  /\ deleteConfirmation (state confirmed) = None
  /\ (deleteConfirmation (state w) = None ->
      exec (confirmDeletion_onClick (Some u) deleted) w = w).
Proof.
  intros Hid asked confirmed. subst asked confirmed.
  unfold confirmDeletion_onClick, delete_onClick, setDeleteConfirmation, handleDeleteInvestor.
  destruct w as [s rs cs ts t]. run_handler. cbn [deleteConfirmation with_deleteConfirmation].
  destruct (id investor) as [|c0 r0] eqn:Hinv; [contradiction |]. cbn [str_truthy].
  split; [reflexivity |]. split; [reflexivity |]. split; [reflexivity |].
  split; [destruct deleted as [[]|e]; reflexivity |].
  split; [destruct deleted as [[]|e]; reflexivity |].
  intros ->. reflexivity.
Qed.

Lemma confirmDeletion_deletes_the_pending_record_witness :
  requests (exec (confirmDeletion_onClick (Some sampleUser) (Resolved ()))
              (exec (delete_onClick bob) initialWorld))
  = [DeleteDoc (investorRef sampleUser (lit "i2"))].
Proof.
  destruct (confirmDeletion_deletes_the_pending_record sampleUser bob (Resolved ())
              initialWorld) as (_ & _ & _ & Hsent & _); [discriminate |].
  exact Hsent.
Defined.

(** ** What the handlers leave alone *)

(** Adding an investor, moving a stage, changing the status and adding,
    editing or deleting a comment never change the local list, whoever is
    signed in and whatever the store answers: their effect on it only comes
    back through the subscription.  Toggling a card and the passing of time
    do not change it either. *)
Theorem local_list_only_changes_on_delete_and_edit
    (toString toISOString : N -> jsstring) (user : option User) (w : World) :
  (forall added : outcome unit,
     investors (state (exec (handleAddInvestor user added) w)) = investors (state w))
  /\ (forall (investorId : jsstring) (newStep : number) (updated : outcome unit),
        investors (state (exec (handleUpdateInvestorStep user investorId newStep updated) w))
        = investors (state w))
  /\ (forall (investorId newStatus : jsstring) (updated : outcome unit),
        investors
          (state (exec (handleUpdateInvestorStatus user investorId newStatus updated) w))
        = investors (state w))
  /\ (forall (investorId commentText : jsstring) (updated : outcome unit),
        investors
          (state (exec (handleAddComment toString toISOString user investorId commentText
                          updated) w))
        = investors (state w))
  /\ (forall (investorId commentId newText : jsstring) (fetched : outcome DocumentSnapshot)
             (updated : outcome unit),
        investors
          (state (exec (handleUpdateComment user investorId commentId newText fetched
                          updated) w))
        = investors (state w))
  /\ (forall (investorId commentId : jsstring) (fetched : outcome DocumentSnapshot)
             (updated : outcome unit),
        investors
          (state (exec (handleDeleteComment user investorId commentId fetched updated) w))
        = investors (state w))
  /\ (forall investorId : jsstring,
        investors (state (exec (toggleCardExpansion investorId) w)) = investors (state w))
  /\ (forall dt : N, investors (state (elapse dt w)) = investors (state w)).
Proof.
  destruct w as [s rs cs ts t]. destruct user as [u|].
  - repeat match goal with |- _ /\ _ => split end.
    + intros [[]|e]; reflexivity.
    + intros investorId newStep [[]|e]; unfold handleUpdateInvestorStep; run_handler;
        [destruct (num_eq newStep lastStep) |]; reflexivity.
    + intros investorId newStatus [[]|e]; reflexivity.
    + intros investorId commentText [[]|e]; reflexivity.
    + intros investorId commentId newText [d|e] [[]|e']; reflexivity.
    + intros investorId commentId [d|e] [[]|e']; reflexivity.
    + intros investorId. reflexivity.
    + intros dt. unfold elapse. cbn [state timers now].
      induction (List.filter (fun tm : Timer => (due tm <=? t + dt)%N) ts) as [|tm l IH]
        using rev_ind; [reflexivity |].
      rewrite fold_left_app. cbn [fold_left]. destruct (callback tm). exact IH.
  - repeat match goal with |- _ /\ _ => split end; try reflexivity.
    intros dt. unfold elapse. cbn [state timers now].
    induction (List.filter (fun tm : Timer => (due tm <=? t + dt)%N) ts) as [|tm l IH]
      using rev_ind; [reflexivity |].
    rewrite fold_left_app. cbn [fold_left]. destruct (callback tm). exact IH.
Qed.

(** ** The error banner *)

(** No handler clears the error state.  After any handler, whatever the
    collaborators answered, the error state is what it was or holds the
    message of one of the eight write operations; so once a write has
    failed, a message stays on screen through every later action, also
    through successful ones. *)
Theorem error_state_is_set_but_never_cleared
    (toString toISOString : N -> jsstring) (user : option User) (w : World) :
  let kept_or_set (w' : World) :=
    error (state w') = error (state w)
    \/ exists op : WriteOperation, error (state w') = Some (failureMessage op) in
  (forall added : outcome unit, kept_or_set (exec (handleAddInvestor user added) w))
  /\ (forall (investorId : jsstring) (newStep : number) (updated : outcome unit),
        kept_or_set (exec (handleUpdateInvestorStep user investorId newStep updated) w))
  /\ (forall (investorId newStatus : jsstring) (updated : outcome unit),
        kept_or_set (exec (handleUpdateInvestorStatus user investorId newStatus updated) w))
  /\ (forall (investorId : jsstring) (deleted : outcome unit),
        kept_or_set (exec (handleDeleteInvestor user investorId deleted) w))
  /\ (forall (updatedInvestor : Investor) (updated : outcome unit)
             (analysed : outcome (list jsstring)) (predicted : outcome number)
             (suggested : outcome (list jsstring)),
        kept_or_set (exec (handleEditInvestor user updatedInvestor updated analysed
                             predicted suggested) w))
  /\ (forall (investorId commentText : jsstring) (updated : outcome unit),
        kept_or_set (exec (handleAddComment toString toISOString user investorId
                             commentText updated) w))
  /\ (forall (investorId commentId newText : jsstring) (fetched : outcome DocumentSnapshot)
             (updated : outcome unit),
        kept_or_set (exec (handleUpdateComment user investorId commentId newText fetched
                             updated) w))
  /\ (forall (investorId commentId : jsstring) (fetched : outcome DocumentSnapshot)
             (updated : outcome unit),
        kept_or_set (exec (handleDeleteComment user investorId commentId fetched updated) w))
  /\ (forall deleted : outcome unit,
        kept_or_set (exec (confirmDeletion_onClick user deleted) w))
  /\ (forall investorId : jsstring, kept_or_set (exec (toggleCardExpansion investorId) w)).
Proof.
  intros kept_or_set. subst kept_or_set. cbv beta.
  destruct w as [s rs cs ts t]. destruct user as [u|].
  - repeat match goal with |- _ /\ _ => split end.
    + intros [[]|e]; [left; reflexivity | right; exists AddInvestor; reflexivity].
    + intros investorId newStep [[]|e]; unfold handleUpdateInvestorStep; run_handler.
      * left. destruct (num_eq newStep lastStep); reflexivity.
      * right. exists UpdateInvestorStep. reflexivity.
    + intros investorId newStatus [[]|e];
        [left; reflexivity | right; exists UpdateInvestorStatus; reflexivity].
    + intros investorId [[]|e];
        [left; reflexivity | right; exists DeleteInvestor; reflexivity].
    + intros updatedInvestor [[]|e] [p|e1] [l|e2] [a|e3];
        first [left; reflexivity | right; exists EditInvestor; reflexivity].
    + intros investorId commentText [[]|e];
        [left; reflexivity | right; exists AddComment; reflexivity].
    + intros investorId commentId newText [d|e] [[]|e'];
        first [left; reflexivity | right; exists UpdateComment; reflexivity].
    + intros investorId commentId [d|e] [[]|e'];
        first [left; reflexivity | right; exists DeleteComment; reflexivity].
    + intros deleted. unfold confirmDeletion_onClick. run_handler.
      destruct (deleteConfirmation s) as [[|c0 r0]|]; cbn [str_truthy];
        try (left; reflexivity).
      destruct deleted as [[]|e];
        [left; reflexivity | right; exists DeleteInvestor; reflexivity].
    + intros investorId. left. reflexivity.
  - repeat match goal with |- _ /\ _ => split end; intros; try (left; reflexivity).
    unfold confirmDeletion_onClick. run_handler.
    destruct (deleteConfirmation s) as [[|c0 r0]|]; left; reflexivity.
Qed.

(** ** Submitting while signed out *)

(** The guard on the user sits inside [handleAddComment] and
    [handleUpdateComment], not in the card.  Signed out, submitting a
    non-blank comment sends nothing and changes nothing in the component,
    yet the input is cleared; saving a non-blank edit likewise sends nothing
    and still leaves edit mode with the edit field emptied. *)
Theorem signed_out_submit_discards_the_text
    (toString toISOString : N -> jsstring) (investor : Investor)
    (fetched : outcome DocumentSnapshot) (updated : outcome unit) (card : CardState)
    (w : World) :
  (forallb isWhiteSpace (newComment card) = false ->
   handleCommentSubmit toString toISOString None investor updated card w
   = (Resolved (mkCard [] (editingCommentId card) (editingCommentText card)), w))
  /\ (forall commentId : jsstring,
        editingCommentId card = Some commentId ->
        commentId <> [] ->
        forallb isWhiteSpace (editingCommentText card) = false ->
        handleSaveEditedComment None investor fetched updated card w
        = (Resolved (mkCard (newComment card) None []), w)).
Proof.
  split.
  - intros Hcontent. unfold handleCommentSubmit.
    destruct (trim (newComment card)) as [|c t] eqn:Htrim.
    + apply trim_nil in Htrim. congruence.
    + reflexivity.
  - intros commentId Hediting Hid Hcontent. unfold handleSaveEditedComment.
    rewrite Hediting. destruct commentId as [|c0 r0]; [contradiction |].
    destruct (trim (editingCommentText card)) as [|c t] eqn:Htrim.
    + apply trim_nil in Htrim. congruence.
    + reflexivity.
Qed.

Lemma signed_out_submit_discards_the_text_witness :
  handleCommentSubmit (fun _ => lit "1") (fun _ => lit "2026") None alice (Resolved ())
    (mkCard (lit "call back on Monday") None []) initialWorld
  = (Resolved (mkCard [] None []), initialWorld).
Proof.
  destruct (signed_out_submit_discards_the_text (fun _ => lit "1") (fun _ => lit "2026")
              alice (Resolved (mkSnapshot None)) (Resolved ())
              (mkCard (lit "call back on Monday") None []) initialWorld) as [Hsubmit _].
  apply Hsubmit. reflexivity.
Defined.

(** ** Stage controls on a step outside the pipeline *)



(** ** Forward and back *)

(** Within the pipeline, Next followed by Previous (each acting on the
    record as the store last wrote it) writes the original step again, and
    so does Previous followed by Next. *)
Theorem next_then_previous_restores_the_step (u : User) (investor moved : Investor) (z : Z)
    (updated : outcome unit) (w w' : World) :
  currentStep investor = Num z ->
  id moved = id investor ->
  (0 <= z < 6 ->
   writtenSteps (issued (click (nextStep_disabled investor)
                           (nextStep_onClick (Some u) investor updated)) w)
   = [currentStep moved] ->
   issued (click (previousStep_disabled moved)
             (previousStep_onClick (Some u) moved updated)) w'
   = [UpdateDoc (investorRef u (id investor)) (SetCurrentStep (currentStep investor))])
  /\ (0 < z <= 6 ->
      writtenSteps (issued (click (previousStep_disabled investor)
                              (previousStep_onClick (Some u) investor updated)) w)
      = [currentStep moved] ->
      issued (click (nextStep_disabled moved)
                (nextStep_onClick (Some u) moved updated)) w'
      = [UpdateDoc (investorRef u (id investor)) (SetCurrentStep (currentStep investor))]).
Proof.
  intros Hstep Hid.
  unfold previousStep_disabled, nextStep_disabled, previousStep_onClick, nextStep_onClick,
    click.
  rewrite Hstep, Hid, lastStep_is_6. unfold num_lt. cbn [num_eq num_gt num_add num_sub].
  split; intros Hz.
  - destruct (Z.eqb_spec z 6); [lia |]. destruct (Z.ltb_spec z 6); [| lia].
    rewrite handleUpdateInvestorStep_issued. intros Hwritten.
    cbn in Hwritten. injection Hwritten as <-. cbn [num_eq num_gt num_sub].
    destruct (Z.eqb_spec (z + 1) 0); [lia |]. destruct (Z.ltb_spec 0 (z + 1)); [| lia].
    rewrite handleUpdateInvestorStep_issued. repeat f_equal. lia.
  - destruct (Z.eqb_spec z 0); [lia |]. destruct (Z.ltb_spec 0 z); [| lia].
    rewrite handleUpdateInvestorStep_issued. intros Hwritten.
    cbn in Hwritten. injection Hwritten as <-. cbn [num_eq num_gt num_add].
    destruct (Z.eqb_spec (z - 1) 6); [lia |]. destruct (Z.ltb_spec (z - 1) 6); [| lia].
    rewrite handleUpdateInvestorStep_issued. repeat f_equal. lia.
Qed.

Lemma next_then_previous_restores_the_step_witness :
  issued (click (previousStep_disabled (sampleInvestor "i3" "Carol" "closed" (Num 4) None))
            (previousStep_onClick (Some sampleUser)
               (sampleInvestor "i3" "Carol" "closed" (Num 4) None) (Resolved ())))
         initialWorld
  = [UpdateDoc (investorRef sampleUser (lit "i3")) (SetCurrentStep (Num 3))].
Proof.
  destruct (next_then_previous_restores_the_step sampleUser carol
              (sampleInvestor "i3" "Carol" "closed" (Num 4) None) 3 (Resolved ())
              initialWorld initialWorld eq_refl eq_refl) as [Hforward _].
  apply Hforward; [lia | reflexivity].
Defined.
